(** * Document AI specialized pipeline: [docai_utils.py]

    A shallow embedding of the five functions of
    [specialized-pipeline/docai_utils.py] and the properties of the batching,
    harvesting, flattening and cleanup logic.

    Python values are embedded as follows.
    - [int] is [Z]; [len] of a list is [Z.of_nat (length _)].
    - [str] is [string]; an f-string is a concatenation with [+:+].
    - the [Dict[str, str]] built by the flattener is a [gmap string string].
    - a decoded JSON record is a [json] tree; a JSON object keeps its fields
      as an association list in insertion order, as a Python [dict] does.
    - an exception is a value of [exn]; a call returns an [outcome].
    - the storage and processing services are an interface ([Collaborators])
      over an abstract state of the outside world; every call made through
      the interface and every [print] is recorded in a log, so that the order
      of calls can be stated. *)

From Stdlib Require Import ZArith String Ascii List Lia.
From stdpp Require Import base option list sorting strings gmap pretty.

Local Open Scope Z_scope.

(** ** Python values *)

Inductive exn : Type :=
| ValueError (msg : string)
| KeyError (key : string)
| TypeError
| JSONDecodeError
| ParseError
| TimeoutError
| ApiError (status : string).

Inductive outcome (A : Type) : Type :=
| Ok (a : A)
| Raise (e : exn).
Arguments Ok {A} a.
Arguments Raise {A} e.

(** [s.replace(old, new)] for one-character [old] and [new]. *)
Fixpoint replace (old new : ascii) (s : string) : string :=
  match s with
  | EmptyString => EmptyString
  | String c rest =>
      String (if Ascii.eqb c old then new else c) (replace old new rest)
  end.

(** [pat in s] on strings. *)
Fixpoint contains (pat s : string) : bool :=
  String.prefix pat s
  || match s with
     | EmptyString => false
     | String _ rest => contains pat rest
     end.

(** ** Messages of the Document AI client library *)

(** [entity.normalized_value] is a message; Python tests its truth value,
    which is false for a message with no field set.  [None] stands for such
    a message, [Some nv] for one that is set. *)
Record NormalizedValue : Type := { text : string }.

Record Entity : Type := {
  type_ : string;
  mention_text : string;
  normalized_value : option NormalizedValue
}.

Record Document : Type := { entities : list Entity }.

Record GcsDocument : Type := { gcs_uri : string; mime_type : string }.

(** [BatchProcessRequest]; the wrappers [BatchDocumentsInputConfig],
    [GcsDocuments] and [DocumentOutputConfig.GcsOutputConfig] each hold one
    field and are flattened. *)
Record BatchProcessRequest : Type := {
  request_name : string;
  input_documents : list GcsDocument;
  document_output_config : string
}.

Record Operation : Type := { operation_name : string }.

Record DocumentProcessorServiceClient : Type := { api_endpoint : string }.

(** A blob handle as [list_blobs] yields it. *)
Record Blob : Type := {
  bucket : string;
  name : string;
  content_type : string
}.

(** A value decoded by [json.loads]. *)
#[warnings="-register-all"] Inductive json : Type :=
| JNull
| JBool (b : bool)
| JNumber (literal : string)
| JString (s : string)
| JArray (items : list json)
| JObject (fields : list (string * json)).

Definition has_key (k : string) (fields : list (string * json)) : bool :=
  existsb (fun kv => String.eqb (fst kv) k) fields.

Definition remove_key (k : string) (fields : list (string * json))
  : list (string * json) :=
  List.filter (fun kv => negb (String.eqb (fst kv) k)) fields.

(** [del d[k]]: [KeyError] when a dict has no key [k], [TypeError] when [d]
    is not a dict. *)
Definition py_del (d : json) (k : string) : outcome json :=
  match d with
  | JObject fields =>
      if has_key k fields then Ok (JObject (remove_key k fields))
      else Raise (KeyError k)
  | _ => Raise TypeError
  end.

(** ** 4.4 Entity flattener: [extract_document_entities] *)

Definition entity_key (entity : Entity) : string :=
  replace "/" "_" (type_ entity).

Definition entity_value (entity : Entity) : string :=
  match normalized_value entity with
  | Some nv => text nv
  | None => mention_text entity
  end.

Definition extract_document_entities (document : Document)
  : gmap string string :=
  fold_left
    (fun document_entities entity =>
       <[entity_key entity := entity_value entity]> document_entities)
    (entities document) ∅.

(** The flattening as the specification words it: the key of an entity is
    its type with every slash replaced by an underscore, its value is the
    text of the normalized value when there is one and the raw text span
    otherwise, and the mapping gives to a key the value of the last entity,
    in document order, that has this key. *)
Module Reference.

Definition normalize_char (c : ascii) : ascii :=
  if decide (c = "/"%char) then "_"%char else c.

Definition normalized_key (e : Entity) : string :=
  string_of_list_ascii (map normalize_char (list_ascii_of_string (type_ e))).

Definition selected_value (e : Entity) : string :=
  from_option text (mention_text e) (normalized_value e).

Definition flattenEntities (d : Document) (k : string) : option string :=
  selected_value
    <$> last (List.filter (fun e => bool_decide (normalized_key e = k))
                          (entities d)).

End Reference.

(** ** The outside world

    [consts.py] is configuration supplied from outside; its values are the
    fields of [Consts]. *)
Class Consts : Type := {
  PROJECT_ID : string;
  LOCATION : string;
  PROCESSOR_ID : string;
  BATCH_MAX_FILES : Z;
  TIMEOUT : Z;
  ACCEPTED_MIME_TYPES : list string
}.

(** The storage client, the Document AI client and the JSON codecs, over a
    state [cloud] of the remote services.  A remote call takes the state and
    returns its outcome with the next state. *)
Class Collaborators (cloud : Type) : Type := {
  (* storage_client.list_blobs(bucket, prefix=prefix), iterated *)
  storage_list_blobs : string -> string -> cloud -> outcome (list Blob) * cloud;
  (* blob.download_as_text() *)
  blob_download_as_text : Blob -> cloud -> outcome string * cloud;
  (* source_bucket.copy_blob(blob, destination_bucket, new_name) *)
  bucket_copy_blob :
    string -> Blob -> string -> string -> cloud -> outcome unit * cloud;
  (* blob.delete() *)
  blob_delete : Blob -> cloud -> outcome unit * cloud;
  (* docai_client.batch_process_documents(request) *)
  client_batch_process_documents :
    DocumentProcessorServiceClient -> BatchProcessRequest -> cloud ->
    outcome Operation * cloud;
  (* operation.result(timeout=timeout) *)
  operation_result : Operation -> Z -> cloud -> outcome unit * cloud;
  (* json.loads, json.dumps, documentai.types.Document.from_json *)
  json_loads : string -> outcome json;
  json_dumps : json -> string;
  Document_from_json : string -> outcome Document
}.

(** What an execution does that can be seen from outside, in order. *)
Inductive event : Type :=
| EPrint (line : string)
| EListBlobs (bucket_name prefix : string) (r : outcome (list Blob))
| EDownload (blob : Blob) (r : outcome string)
| ECopy (source_bucket : string) (blob : Blob)
        (destination_bucket new_name : string) (r : outcome unit)
| EDelete (blob : Blob) (r : outcome unit)
| ESubmit (client : DocumentProcessorServiceClient)
          (request : BatchProcessRequest) (r : outcome Operation)
| EWait (operation : Operation) (timeout : Z) (r : outcome unit).

Record world (cloud : Type) : Type := {
  remote : cloud;
  log : list event
}.
Arguments remote {cloud} w.
Arguments log {cloud} w.

(** ** State and exception monad *)

Definition M (cloud A : Type) : Type := world cloud -> outcome A * world cloud.

Definition ret {cloud A} (a : A) : M cloud A := fun w => (Ok a, w).

Definition raise {cloud A} (e : exn) : M cloud A := fun w => (Raise e, w).

Definition bind {cloud A B} (m : M cloud A) (k : A -> M cloud B) : M cloud B :=
  fun w =>
    match m w with
    | (Ok a, w') => k a w'
    | (Raise e, w') => (Raise e, w')
    end.

Notation "'do' x <- m 'in' k" := (bind m (fun x => k))
  (at level 10, x pattern, m at level 200, k at level 200, only parsing).

Definition lift {cloud A} (r : outcome A) : M cloud A := fun w => (r, w).

Definition emit {cloud} (ev : event) (w : world cloud) : world cloud :=
  {| remote := remote w; log := log w ++ [ev] |}.

Definition print {cloud} (line : string) : M cloud unit :=
  fun w => (Ok tt, emit (EPrint line) w).

(** A remote call: run it on the state of the services and log it with its
    outcome. *)
Definition call {cloud A} (f : cloud -> outcome A * cloud)
    (ev : outcome A -> event) : M cloud A :=
  fun w =>
    let (r, c) := f (remote w) in
    (r, {| remote := c; log := log w ++ [ev r] |}).

(** [for x in items: body], with the local variables the body updates
    passed along; an exception in the body ends the loop. *)
Fixpoint for_in {cloud A St} (items : list A) (body : A -> St -> M cloud St)
    (s : St) : M cloud St :=
  match items with
  | [] => ret s
  | x :: rest => do s' <- body x s in for_in rest body s'
  end.

(** [for i, x in enumerate(items): body], counting from [i]. *)
Fixpoint for_enumerate {cloud A St} (i : nat) (items : list A)
    (body : nat -> A -> St -> M cloud St) (s : St) : M cloud St :=
  match items with
  | [] => ret s
  | x :: rest => do s' <- body i x s in for_enumerate (S i) rest body s'
  end.

(** ** The pipeline *)

Section Pipeline.
Context `{Consts} {cloud : Type} `{Collaborators cloud}.

(** *** 4.1 Batch partitioner: [create_batches] *)

(** [content_type in ACCEPTED_MIME_TYPES] *)
Definition accepted (mime : string) : bool :=
  existsb (String.eqb mime) ACCEPTED_MIME_TYPES.

Definition make_gcs_document (input_bucket : string) (blob : Blob)
  : GcsDocument :=
  {| gcs_uri := "gs://" +:+ input_bucket +:+ "/" +:+ name blob;
     mime_type := content_type blob |}.

(** The body of the loop over the listing; its local variables are
    [batches] and [batch]. *)
Definition create_batches_body (input_bucket : string) (batch_size : Z)
    (blob : Blob) (vars : list (list GcsDocument) * list GcsDocument)
  : M cloud (list (list GcsDocument) * list GcsDocument) :=
  let '(batches, batch) := vars in
  if negb (accepted (content_type blob)) then
    do _ <- print ("Invalid Mime Type " +:+ content_type blob
                   +:+ " - Skipping file " +:+ name blob) in
    ret (batches, batch)
  else
    let '(batches, batch) :=
      if Z.of_nat (length batch) =? batch_size
      then (batches ++ [batch], [])
      else (batches, batch) in
    ret (batches, batch ++ [make_gcs_document input_bucket blob]).

(** The caller passes [batch_size]; Python's default is
    [BATCH_MAX_FILES]. *)
Definition create_batches (input_bucket input_prefix : string)
    (batch_size : Z) : M cloud (list (list GcsDocument)) :=
  if batch_size >? BATCH_MAX_FILES then
    raise (ValueError ("Batch size must be less than "
                       +:+ pretty BATCH_MAX_FILES
                       +:+ ". You provided " +:+ pretty batch_size))
  else
    do blob_list <- call (storage_list_blobs input_bucket input_prefix)
                         (EListBlobs input_bucket input_prefix) in
    do vars <- for_in blob_list
                 (create_batches_body input_bucket batch_size) ([], []) in
    let '(batches, batch) := vars in
    ret (batches ++ [batch]).

(** *** 4.2 Batch submitter: [_batch_process_documents] *)

(** [DocumentProcessorServiceClient.processor_path] *)
Definition processor_path (project location processor : string) : string :=
  "projects/" +:+ project +:+ "/locations/" +:+ location
  +:+ "/processors/" +:+ processor.

Definition make_request (resource_name : string) (batch : list GcsDocument)
    (output_config : string) : BatchProcessRequest :=
  {| request_name := resource_name;
     input_documents := batch;
     document_output_config := output_config |}.

(** The body of the loop over the batches; its local variable is
    [operation_ids]. *)
Definition submit_body (docai_client : DocumentProcessorServiceClient)
    (resource_name output_config : string)
    (i : nat) (batch : list GcsDocument) (operation_ids : list string)
  : M cloud (list string) :=
  do _ <- print ("Processing Document Batch " +:+ pretty i +:+ ": "
                 +:+ pretty (length batch) +:+ " documents") in
  let request := make_request resource_name batch output_config in
  do operation <- call (client_batch_process_documents docai_client request)
                       (ESubmit docai_client request) in
  let operation_ids := operation_ids ++ [operation_name operation] in
  do _ <- print ("Waiting for operation " +:+ operation_name operation) in
  do _ <- call (operation_result operation TIMEOUT)
               (EWait operation TIMEOUT) in
  ret operation_ids.

Definition _batch_process_documents
    (gcs_output_uri input_bucket input_prefix : string) (batch_size : Z)
  : M cloud (list string) :=
  let docai_client :=
    {| api_endpoint := LOCATION +:+ "-documentai.googleapis.com" |} in
  let resource_name := processor_path PROJECT_ID LOCATION PROCESSOR_ID in
  let output_config := gcs_output_uri in
  do batches <- create_batches input_bucket input_prefix batch_size in
  for_enumerate 0 batches
    (submit_body docai_client resource_name output_config) [].

(** *** 4.3 Result harvester: [get_document_protos_from_gcs] *)

(** The block under the comment "Remove large fields": both [del] are in
    one [try], and [except KeyError: pass] follows.  The dict is changed in
    place, so a [KeyError] at the second [del] leaves the first done. *)
Definition remove_large_fields (document_dict : json) : outcome json :=
  match py_del document_dict "pages" with
  | Ok without_pages =>
      match py_del without_pages "text" with
      | Ok without_text => Ok without_text
      | Raise (KeyError _) => Ok without_pages
      | Raise e => Raise e
      end
  | Raise (KeyError _) => Ok document_dict
  | Raise e => Raise e
  end.

(** The body of the loop over the output listing; its local variable is
    [document_protos]. *)
Definition harvest_body (blob : Blob) (document_protos : list Document)
  : M cloud (list Document) :=
  do _ <- print ("Fetching from " +:+ name blob) in
  if contains ".json" (name blob) then
    do blob_data <- call (blob_download_as_text blob) (EDownload blob) in
    do document_dict <- lift (json_loads blob_data) in
    do document_dict <- lift (remove_large_fields document_dict) in
    match Document_from_json (json_dumps document_dict) with
    | Ok document_proto => ret (document_protos ++ [document_proto])
    | Raise ParseError =>
        do _ <- print ("Failed to parse " +:+ name blob) in
        ret document_protos
    | Raise e => raise e
    end
  else
    do _ <- print ("Skipping non-supported file type " +:+ name blob) in
    ret document_protos.

Definition get_document_protos_from_gcs
    (output_bucket output_directory : string) : M cloud (list Document) :=
  do blob_list <- call (storage_list_blobs output_bucket output_directory)
                       (EListBlobs output_bucket output_directory) in
  for_in blob_list harvest_body [].

(** *** 4.5 Cleanup and archive: [cleanup_gcs] *)

Definition queue_body (blob : Blob) (delete_queue : list Blob)
  : M cloud (list Blob) :=
  ret (delete_queue ++ [blob]).

(** [print] shows the source bucket object, not its name. *)
Definition archive_body (input_bucket archive_bucket : string)
    (source_blob : Blob) (delete_queue : list Blob) : M cloud (list Blob) :=
  do _ <- print ("Moving <Bucket: " +:+ input_bucket +:+ ">/"
                 +:+ name source_blob +:+ " to " +:+ archive_bucket
                 +:+ "/" +:+ name source_blob) in
  do _ <- call (bucket_copy_blob input_bucket source_blob archive_bucket
                                 (name source_blob))
               (ECopy input_bucket source_blob archive_bucket
                      (name source_blob)) in
  ret (delete_queue ++ [source_blob]).

Definition delete_body (blob : Blob) (_ : unit) : M cloud unit :=
  do _ <- print ("Deleting " +:+ name blob) in
  call (blob_delete blob) (EDelete blob).

Definition cleanup_gcs
    (input_bucket input_prefix output_bucket output_directory
     archive_bucket : string) : M cloud unit :=
  let delete_queue := [] in
  do intermediate_files <-
       call (storage_list_blobs output_bucket output_directory)
            (EListBlobs output_bucket output_directory) in
  do delete_queue <- for_in intermediate_files queue_body delete_queue in
  do source_blobs <- call (storage_list_blobs input_bucket input_prefix)
                          (EListBlobs input_bucket input_prefix) in
  do delete_queue <-
       for_in source_blobs (archive_body input_bucket archive_bucket)
              delete_queue in
  for_in delete_queue delete_body tt.

End Pipeline.

(** ** An in-memory double of the services

    Buckets hold objects under their names; a listing is in the order of the
    names, as the storage service gives it.  The processing service follows
    a plan fixed in advance, one entry per submitted job.  The codecs read
    the few texts the examples use. *)
Module Fake.

Record object : Type := {
  object_content_type : string;
  object_text : string
}.

Inductive job_plan : Type :=
| Rejects (e : exn)
| Accepts (operation_id : string) (result : outcome unit).

Record cloud : Type := {
  buckets : list string;
  objects : gmap (string * string) object;
  plans : list job_plan;
  running : gmap string (outcome unit)
}.

Definition with_objects (objs : gmap (string * string) object) (c : cloud)
  : cloud :=
  {| buckets := buckets c; objects := objs;
     plans := plans c; running := running c |}.

Definition not_found {A} : outcome A := Raise (ApiError "NotFound").

Definition handle (entry : string * string * object) : Blob :=
  {| bucket := entry.1.1; name := entry.1.2;
     content_type := object_content_type entry.2 |}.

Definition name_le (x y : Blob) : Prop :=
  Is_true (String.leb (name x) (name y)).

#[global] Instance name_le_dec x y : Decision (name_le x y).
Proof. unfold name_le. apply _. Defined.

Definition under (bucket_name prefix : string) (blob : Blob) : bool :=
  String.eqb (bucket blob) bucket_name && String.prefix prefix (name blob).

Definition list_blobs (bucket_name prefix : string) (c : cloud)
  : outcome (list Blob) * cloud :=
  if bool_decide (bucket_name ∈ buckets c) then
    (Ok (merge_sort name_le
           (List.filter (under bucket_name prefix)
                        (handle <$> map_to_list (objects c)))), c)
  else (not_found, c).

Definition download_as_text (blob : Blob) (c : cloud)
  : outcome string * cloud :=
  match objects c !! (bucket blob, name blob) with
  | Some o => (Ok (object_text o), c)
  | None => (not_found, c)
  end.

Definition copy_blob (source_bucket : string) (blob : Blob)
    (destination_bucket new_name : string) (c : cloud)
  : outcome unit * cloud :=
  match objects c !! (source_bucket, name blob) with
  | Some o =>
      if bool_decide (destination_bucket ∈ buckets c) then
        (Ok tt,
         with_objects (<[(destination_bucket, new_name) := o]> (objects c)) c)
      else (not_found, c)
  | None => (not_found, c)
  end.

Definition delete (blob : Blob) (c : cloud) : outcome unit * cloud :=
  match objects c !! (bucket blob, name blob) with
  | Some _ =>
      (Ok tt, with_objects (base.delete (bucket blob, name blob) (objects c)) c)
  | None => (not_found, c)
  end.

Definition batch_process_documents (_ : DocumentProcessorServiceClient)
    (_ : BatchProcessRequest) (c : cloud) : outcome Operation * cloud :=
  match plans c with
  | [] => (Raise (ApiError "ResourceExhausted"), c)
  | Rejects e :: rest =>
      (Raise e,
       {| buckets := buckets c; objects := objects c;
          plans := rest; running := running c |})
  | Accepts id result :: rest =>
      (Ok {| operation_name := id |},
       {| buckets := buckets c; objects := objects c;
          plans := rest; running := <[id := result]> (running c) |})
  end.

Definition result (operation : Operation) (_ : Z) (c : cloud)
  : outcome unit * cloud :=
  match running c !! operation_name operation with
  | Some r => (r, c)
  | None => (not_found, c)
  end.

(** The codecs on the texts [{}], [[]] and [null]; every other text is
    taken as not JSON, and only the empty record fits the schema. *)
Definition loads (s : string) : outcome json :=
  if String.eqb s "{}" then Ok (JObject [])
  else if String.eqb s "[]" then Ok (JArray [])
  else if String.eqb s "null" then Ok JNull
  else Raise JSONDecodeError.

Definition dumps (j : json) : string :=
  match j with
  | JObject [] => "{}"
  | JArray [] => "[]"
  | JNull => "null"
  | _ => "..."
  end.

Definition from_json (s : string) : outcome Document :=
  if String.eqb s "{}" then Ok {| entities := [] |} else Raise ParseError.

#[global] Instance collaborators : Collaborators cloud := {|
  storage_list_blobs := list_blobs;
  blob_download_as_text := download_as_text;
  bucket_copy_blob := copy_blob;
  blob_delete := delete;
  client_batch_process_documents := batch_process_documents;
  operation_result := result;
  json_loads := loads;
  json_dumps := dumps;
  Document_from_json := from_json
|}.

#[global] Instance consts : Consts := {|
  PROJECT_ID := "project";
  LOCATION := "us";
  PROCESSOR_ID := "processor";
  BATCH_MAX_FILES := 50;
  TIMEOUT := 400;
  ACCEPTED_MIME_TYPES := ["application/pdf"; "image/png"]
|}.

Definition pdf (text : string) : object :=
  {| object_content_type := "application/pdf"; object_text := text |}.

Definition start (bs : list string) (objs : list (string * string * object))
    (ps : list job_plan) : world cloud :=
  {| remote := {| buckets := bs; objects := list_to_map objs;
                  plans := ps; running := ∅ |};
     log := [] |}.

(** The place of a blob in the store. *)
Definition key (blob : Blob) : string * string := (bucket blob, name blob).

(** Sample states. *)
Definition two_pdfs : world cloud :=
  start ["in"; "out"; "archive"]
        [("in", "a.pdf", pdf "A"); ("in", "b.pdf", pdf "B")] [].

Definition two_pdfs_listing : list Blob :=
  [ {| bucket := "in"; name := "a.pdf"; content_type := "application/pdf" |};
    {| bucket := "in"; name := "b.pdf"; content_type := "application/pdf" |} ].

(** One object that is not accepted, and a service that accepts one job
    and completes it. *)
Definition only_text_file : world cloud :=
  start ["in"; "out"; "archive"]
        [("in", "notes.txt",
          {| object_content_type := "text/plain"; object_text := "" |})]
        [Accepts "operations/1" (Ok tt)].

Definition only_text_file_listing : list Blob :=
  [ {| bucket := "in"; name := "notes.txt"; content_type := "text/plain" |} ].

(** An output directory with one record that decodes and parses, and one
    that was cut short. *)
Definition json_file (text : string) : object :=
  {| object_content_type := "application/json"; object_text := text |}.

Definition one_good_one_truncated : world cloud :=
  start ["out"]
        [("out", "results/0.json", json_file "{}");
         ("out", "results/1.json", json_file "{")] [].

(** Two processed inputs and one intermediate output. *)
Definition ready_for_cleanup : world cloud :=
  start ["in"; "out"; "archive"]
        [("in", "a.pdf", pdf "A"); ("in", "b.pdf", pdf "B");
         ("out", "results/0.json", json_file "{}")] [].

Definition a_pdf : Blob :=
  {| bucket := "in"; name := "a.pdf"; content_type := "application/pdf" |}.

Definition b_pdf : Blob :=
  {| bucket := "in"; name := "b.pdf"; content_type := "application/pdf" |}.

Definition result_0 : Blob :=
  {| bucket := "out"; name := "results/0.json";
     content_type := "application/json" |}.

(** Two accepted inputs, and a service that accepts and completes two
    jobs. *)
Definition two_pdfs_two_jobs : world cloud :=
  start ["in"; "out"; "archive"]
        [("in", "a.pdf", pdf "A"); ("in", "b.pdf", pdf "B")]
        [Accepts "operations/1" (Ok tt); Accepts "operations/2" (Ok tt)].

(** An output directory with two records and a file that is no record,
    and one whose only record decodes to a list. *)
Definition mixed_output : world cloud :=
  start ["out"]
        [("out", "results/0.json", json_file "{}");
         ("out", "results/1.json", json_file "{}");
         ("out", "results/log.txt",
          {| object_content_type := "text/plain"; object_text := "done" |})]
        [].

Definition mixed_output_listing : list Blob :=
  [ {| bucket := "out"; name := "results/0.json";
       content_type := "application/json" |};
    {| bucket := "out"; name := "results/1.json";
       content_type := "application/json" |};
    {| bucket := "out"; name := "results/log.txt";
       content_type := "text/plain" |} ].

Definition list_record : world cloud :=
  start ["out"] [("out", "results/0.json", json_file "[]")] [].

(** Existing buckets that hold nothing. *)
Definition empty_buckets : world cloud :=
  start ["in"; "out"; "archive"] [] [].

End Fake.

(** ** Notions used in the statements *)

(** The remote calls of a log, without the printed lines. *)
Definition is_call (ev : event) : bool :=
  match ev with EPrint _ => false | _ => true end.

Definition calls (evs : list event) : list event := List.filter is_call evs.

(** ceil(n / b) for a positive [b]. *)
Definition ceil_div (n b : Z) : Z := (n + b - 1) / b.

Section Partition.
Context `{Consts}.

(** The documents of the accepted blobs of a listing, in listing order. *)
Definition accepted_documents (input_bucket : string) (listing : list Blob)
  : list GcsDocument :=
  make_gcs_document input_bucket
    <$> List.filter (fun blob => accepted (content_type blob)) listing.

(** The lines printed for the blobs that are skipped. *)
Definition skip_notes (listing : list Blob) : list event :=
  (fun blob => EPrint ("Invalid Mime Type " +:+ content_type blob
                       +:+ " - Skipping file " +:+ name blob))
    <$> List.filter (fun blob => negb (accepted (content_type blob))) listing.

(** What one accepted document does to [batches] and [batch]. *)
Definition close_and_add (batch_size : Z)
    (vars : list (list GcsDocument) * list GcsDocument) (doc : GcsDocument)
  : list (list GcsDocument) * list GcsDocument :=
  let '(batches, batch) :=
    if Z.of_nat (length vars.2) =? batch_size
    then (vars.1 ++ [vars.2], [])
    else (vars.1, vars.2) in
  (batches, batch ++ [doc]).

Definition partition (batch_size : Z) (docs : list GcsDocument)
  : list (list GcsDocument) :=
  let vars := fold_left (close_and_add batch_size) docs ([], []) in
  vars.1 ++ [vars.2].

End Partition.

Section SubmitterNotions.
Context `{Consts}.

(** The client and the names [_batch_process_documents] builds first. *)
Definition docai_client : DocumentProcessorServiceClient :=
  {| api_endpoint := LOCATION +:+ "-documentai.googleapis.com" |}.

Definition resource_name : string :=
  processor_path PROJECT_ID LOCATION PROCESSOR_ID.

Definition request_for (gcs_output_uri : string) (batch : list GcsDocument)
  : BatchProcessRequest :=
  make_request resource_name batch gcs_output_uri.

(** The calls of a job that is accepted and completes in time. *)
Definition completed_job (gcs_output_uri : string)
    (batch : list GcsDocument) (operation : Operation) : list event :=
  [ ESubmit docai_client (request_for gcs_output_uri batch) (Ok operation);
    EWait operation TIMEOUT (Ok tt) ].

(** The calls of a job that fails with [e]: at submission, or at the
    wait. *)
Definition failed_job (gcs_output_uri : string) (batch : list GcsDocument)
    (e : exn) (evs : list event) : Prop :=
  evs = [ ESubmit docai_client (request_for gcs_output_uri batch) (Raise e) ]
  \/ exists operation,
      evs = [ ESubmit docai_client (request_for gcs_output_uri batch)
                      (Ok operation);
              EWait operation TIMEOUT (Raise e) ].

End SubmitterNotions.

(** The requests submitted in a log, in order. *)
Definition submissions (evs : list event) : list BatchProcessRequest :=
  omap (fun ev => match ev with
                  | ESubmit _ request _ => Some request
                  | _ => None
                  end) evs.

(** The exception of a remote call that failed. *)
Definition failure (ev : event) : option exn :=
  match ev with
  | EListBlobs _ _ (Raise e) | EDownload _ (Raise e)
  | ECopy _ _ _ _ (Raise e) | EDelete _ (Raise e)
  | ESubmit _ _ (Raise e) | EWait _ _ (Raise e) => Some e
  | _ => None
  end.

Definition is_copy (ev : event) : bool :=
  match ev with ECopy _ _ _ _ _ => true | _ => false end.

Definition is_delete (ev : event) : bool :=
  match ev with EDelete _ _ => true | _ => false end.

(** The copy of an input blob to the archive under its own name, and the
    deletion of a blob, with their outcomes. *)
Definition copy_call (input_bucket archive_bucket : string)
    (r : outcome unit) (blob : Blob) : event :=
  ECopy input_bucket blob archive_bucket (name blob) r.

Definition delete_call (r : outcome unit) (blob : Blob) : event :=
  EDelete blob r.

(** The remote calls of one execution of [cleanup_gcs] and its outcome:
    two listings, the copies of the input blobs in listing order, then the
    deletions of the queued blobs in queue order; the first call that fails
    is the last call. *)
Inductive cleanup_calls
    (input_bucket input_prefix output_bucket output_directory
     archive_bucket : string) : outcome unit -> list event -> Prop :=
| output_listing_fails e :
    cleanup_calls input_bucket input_prefix output_bucket output_directory
      archive_bucket (Raise e)
      [EListBlobs output_bucket output_directory (Raise e)]
| input_listing_fails intermediate_files e :
    cleanup_calls input_bucket input_prefix output_bucket output_directory
      archive_bucket (Raise e)
      [EListBlobs output_bucket output_directory (Ok intermediate_files);
       EListBlobs input_bucket input_prefix (Raise e)]
| copy_fails intermediate_files copied blob rest e :
    cleanup_calls input_bucket input_prefix output_bucket output_directory
      archive_bucket (Raise e)
      ([EListBlobs output_bucket output_directory (Ok intermediate_files);
        EListBlobs input_bucket input_prefix (Ok (copied ++ blob :: rest))]
       ++ (copy_call input_bucket archive_bucket (Ok tt) <$> copied)
       ++ [copy_call input_bucket archive_bucket (Raise e) blob])
| delete_fails intermediate_files source_blobs deleted blob rest e :
    intermediate_files ++ source_blobs = deleted ++ blob :: rest ->
    cleanup_calls input_bucket input_prefix output_bucket output_directory
      archive_bucket (Raise e)
      ([EListBlobs output_bucket output_directory (Ok intermediate_files);
        EListBlobs input_bucket input_prefix (Ok source_blobs)]
       ++ (copy_call input_bucket archive_bucket (Ok tt) <$> source_blobs)
       ++ (delete_call (Ok tt) <$> deleted)
       ++ [delete_call (Raise e) blob])
| cleanup_completes intermediate_files source_blobs :
    cleanup_calls input_bucket input_prefix output_bucket output_directory
      archive_bucket (Ok tt)
      ([EListBlobs output_bucket output_directory (Ok intermediate_files);
        EListBlobs input_bucket input_prefix (Ok source_blobs)]
       ++ (copy_call input_bucket archive_bucket (Ok tt) <$> source_blobs)
       ++ (delete_call (Ok tt) <$> intermediate_files ++ source_blobs)).

Section HarvesterNotions.
Context {cloud : Type} `{Collaborators cloud}.

(** [".json" in blob.name] *)
Definition is_record (blob : Blob) : bool := contains ".json" (name blob).

(** What the harvester makes of the text of one record: a document,
    nothing when the schema parser raises [ParseError], or the exception
    that leaves the loop. *)
Definition parse_record (blob_data : string) : outcome (option Document) :=
  match json_loads blob_data with
  | Raise e => Raise e
  | Ok document_dict =>
      match remove_large_fields document_dict with
      | Raise e => Raise e
      | Ok stripped =>
          match Document_from_json (json_dumps stripped) with
          | Ok document_proto => Ok (Some document_proto)
          | Raise ParseError => Ok None
          | Raise e => Raise e
          end
      end
  end.

(** A download with its outcome, as logged. *)
Definition download_call (attempt : Blob * outcome string) : event :=
  EDownload attempt.1 attempt.2.

End HarvesterNotions.

(** A sample document: a total with a normalized value, a supplier
    without. *)
Module Sample.

Definition total : Entity :=
  {| type_ := "invoice/total"; mention_text := "10,00 EUR";
     normalized_value := Some {| text := "10.00" |} |}.

Definition supplier : Entity :=
  {| type_ := "supplier"; mention_text := "ACME";
     normalized_value := None |}.

Definition invoice : Document := {| entities := [total; supplier] |}.

End Sample.

(** * Properties *)

(** ** The monad *)

Section MonadFacts.
Context {cloud : Type}.

Lemma bind_ok {A B} (m : M cloud A) (k : A -> M cloud B) w a w' :
  m w = (Ok a, w') -> bind m k w = k a w'.
Proof. intros E. unfold bind. by rewrite E. Qed.

Lemma calls_app (l1 l2 : list event) : calls (l1 ++ l2) = calls l1 ++ calls l2.
Proof. apply List.filter_app. Qed.

Lemma world_eta (w : world cloud) : {| remote := remote w; log := log w |} = w.
Proof. by destruct w. Qed.

End MonadFacts.

(** Unfold the monad's operations and the record projections they meet. *)
Ltac run_monad :=
  unfold bind, print, call, lift, ret, raise, emit; cbn [remote log].

(** ** Entity flattener *)

Lemma replace_slash_reference (e : Entity) :
  entity_key e = Reference.normalized_key e.
Proof.
  unfold entity_key, Reference.normalized_key.
  induction (type_ e) as [|c s IH]; simpl; [reflexivity|].
  rewrite IH. f_equal. unfold Reference.normalize_char.
  destruct (Ascii.eqb_spec c "/"); destruct (decide (c = "/"%char)); congruence.
Qed.

Lemma entity_value_reference (e : Entity) :
  entity_value e = Reference.selected_value e.
Proof.
  unfold entity_value, Reference.selected_value.
  by destruct (normalized_value e).
Qed.

Lemma flatten_lookup (es : list Entity) (k : string) :
  fold_left
    (fun (m : gmap string string) e => <[entity_key e := entity_value e]> m)
    es ∅ !! k
  = Reference.selected_value
      <$> last (List.filter (fun e => bool_decide (Reference.normalized_key e = k))
                            es).
Proof.
  induction es as [|e es IH] using rev_ind;
    [simpl; by rewrite lookup_empty|].
  rewrite fold_left_app, List.filter_app. simpl.
  rewrite replace_slash_reference, entity_value_reference.
  case_bool_decide as Hk.
  - rewrite last_snoc. subst k. by rewrite lookup_insert_eq.
  - rewrite app_nil_r, lookup_insert_ne by done. apply IH.
Qed.

(** C4. For every document the flattener's mapping gives to each key the
    value prescribed by the reference: the value (normalized text when a
    normalized value is present, raw mention text otherwise) of the last
    entity, in document order, whose type with every slash replaced by an
    underscore is that key, and no value to any other key.  A document
    without entities gives the empty mapping, and the entities a/b with
    text x, then a_b with text y, give the single entry a_b -> y. *)
Theorem extract_document_entities_reference :
  (forall (document : Document) (k : string),
      extract_document_entities document !! k
      = Reference.flattenEntities document k)
  /\ extract_document_entities {| entities := [] |} = ∅
  /\ extract_document_entities
       {| entities :=
            [ {| type_ := "a/b"; mention_text := "x";
                 normalized_value := None |};
              {| type_ := "a_b"; mention_text := "y";
                 normalized_value := None |} ] |}
     = {[ "a_b" := "y" ]}.
Proof.
  split; [|split].
  - intros document k. apply flatten_lookup.
  - reflexivity.
  - apply map_eq. intros k. etrans; [apply flatten_lookup|]. simpl.
    destruct (decide (k = "a_b")) as [->|Hne].
    + by rewrite lookup_singleton_eq.
    + rewrite lookup_singleton_ne by done.
      rewrite !bool_decide_eq_false_2; [done| |]; vm_compute; congruence.
Qed.

(** ** Batch partitioner *)

Section PartitionFacts.
Context `{Consts}.

Lemma close_and_add_fold_snoc B docs doc vars :
  fold_left (close_and_add B) (docs ++ [doc]) vars
  = close_and_add B (fold_left (close_and_add B) docs vars) doc.
Proof. by rewrite fold_left_app. Qed.

(** Nothing is lost or reordered, whatever the batch size. *)
Lemma partition_concat B docs : concat (partition B docs) = docs.
Proof.
  unfold partition.
  induction docs as [|doc docs IH] using rev_ind; [reflexivity|].
  rewrite close_and_add_fold_snoc.
  destruct (fold_left (close_and_add B) docs ([], [])) as [batches batch].
  unfold close_and_add; simpl in *.
  rewrite concat_app in IH; simpl in IH. rewrite app_nil_r in IH.
  destruct (Z.of_nat (length batch) =? B); simpl;
    rewrite !concat_app; simpl; rewrite ?concat_app; simpl;
    rewrite ?app_nil_r, <- ?app_assoc; by rewrite <- IH, <- ?app_assoc.
Qed.

(** The loop invariant for a positive batch size: closed batches are full,
    the open batch is not over-full, and it is empty only at the start. *)
Lemma partition_invariant B docs :
  1 <= B ->
  let vars := fold_left (close_and_add B) docs ([], []) in
  Forall (fun batch => Z.of_nat (length batch) = B) vars.1
  /\ Z.of_nat (length vars.2) <= B
  /\ (docs = [] -> vars = ([], []))
  /\ (docs <> [] -> 1 <= Z.of_nat (length vars.2))
  /\ Z.of_nat (length docs)
     = Z.of_nat (length vars.1) * B + Z.of_nat (length vars.2).
Proof.
  intros HB. simpl.
  induction docs as [|doc docs IH] using rev_ind.
  { simpl. repeat split; try done. lia. }
  rewrite close_and_add_fold_snoc.
  destruct (fold_left (close_and_add B) docs ([], [])) as [batches batch].
  destruct IH as (Hfull & Hle & _ & Hpos & Hcount). simpl in *.
  unfold close_and_add; simpl.
  destruct (Z.eqb_spec (Z.of_nat (length batch)) B) as [Heq|Hne]; simpl.
  - repeat split.
    + apply Forall_app. split; [done|]. by constructor.
    + lia.
    + intros E. by destruct docs.
    + lia.
    + rewrite !length_app. simpl. nia.
  - rewrite !length_app. simpl. repeat split.
    + done.
    + lia.
    + intros E. by destruct docs.
    + lia.
    + nia.
Qed.

Lemma ceil_div_exact k r B :
  1 <= B -> 1 <= r <= B -> 0 <= k -> ceil_div (k * B + r) B = k + 1.
Proof.
  intros HB Hr Hk. unfold ceil_div. symmetry.
  apply (Z.div_unique _ _ _ (r - 1)); lia.
Qed.

(** The loop of [create_batches] prints a line for each skipped blob and
    gives the accepted ones to [close_and_add]. *)
Lemma create_batches_loop {cloud} `{Collaborators cloud}
    input_bucket B listing vars (w : world cloud) :
  for_in listing (create_batches_body input_bucket B) vars w
  = (Ok (fold_left (close_and_add B)
                   (accepted_documents input_bucket listing) vars),
     {| remote := remote w; log := log w ++ skip_notes listing |}).
Proof.
  revert vars w. induction listing as [|blob listing IH]; intros vars w.
  { simpl. unfold ret, skip_notes. simpl. by rewrite app_nil_r, world_eta. }
  simpl. unfold bind, create_batches_body.
  destruct vars as [batches batch].
  unfold accepted_documents, skip_notes. simpl.
  destruct (accepted (content_type blob)); simpl.
  - destruct (Z.of_nat (length batch) =? B) eqn:E; unfold ret;
      rewrite IH; unfold close_and_add; simpl; rewrite E; reflexivity.
  - unfold print, ret, emit. rewrite IH. simpl.
    by rewrite <- app_assoc.
Qed.

Lemma create_batches_run {cloud} `{Collaborators cloud}
    input_bucket input_prefix B (w : world cloud) listing c :
  B <= BATCH_MAX_FILES ->
  storage_list_blobs input_bucket input_prefix (remote w) = (Ok listing, c) ->
  create_batches input_bucket input_prefix B w
  = (Ok (partition B (accepted_documents input_bucket listing)),
     {| remote := c;
        log := log w ++ [EListBlobs input_bucket input_prefix (Ok listing)]
               ++ skip_notes listing |}).
Proof.
  intros HB Hlist. unfold create_batches.
  destruct (Z.gtb_spec B BATCH_MAX_FILES); [lia|].
  unfold bind, call. rewrite Hlist. rewrite create_batches_loop. simpl.
  destruct (fold_left _ _ _) as [batches batch] eqn:E.
  unfold ret, partition. rewrite E. simpl. by rewrite <- app_assoc.
Qed.

Lemma create_batches_listing_fails {cloud} `{Collaborators cloud}
    input_bucket input_prefix B (w : world cloud) e c :
  B <= BATCH_MAX_FILES ->
  storage_list_blobs input_bucket input_prefix (remote w) = (Raise e, c) ->
  create_batches input_bucket input_prefix B w
  = (Raise e,
     {| remote := c;
        log := log w ++ [EListBlobs input_bucket input_prefix (Raise e)] |}).
Proof.
  intros HB Hlist. unfold create_batches.
  destruct (Z.gtb_spec B BATCH_MAX_FILES); [lia|].
  unfold bind, call. by rewrite Hlist.
Qed.

End PartitionFacts.

Section PartitionClaims.
Context `{Consts} {cloud : Type} `{Collaborators cloud}.

(** C1 (amended). For a listing with N accepted objects and a batch size
    B with 1 <= B <= BATCH_MAX_FILES, [create_batches] returns
    max(1, ceil(N/B)) batches; concatenating them gives exactly the
    documents of the accepted objects in listing order, so every accepted
    object is in exactly one batch; and an empty batch occurs only when
    nothing was accepted, in which case it is the only batch. *)
Theorem create_batches_covers_listing
    (input_bucket input_prefix : string) (B : Z) (w : world cloud)
    (listing : list Blob) (c : cloud) :
  1 <= B -> B <= BATCH_MAX_FILES ->
  storage_list_blobs input_bucket input_prefix (remote w) = (Ok listing, c) ->
  exists batches,
    (create_batches input_bucket input_prefix B w).1 = Ok batches
    /\ Z.of_nat (length batches)
       = Z.max 1 (ceil_div
                    (Z.of_nat (length (accepted_documents input_bucket listing)))
                    B)
    /\ concat batches = accepted_documents input_bucket listing
    /\ ([] ∈ batches <-> accepted_documents input_bucket listing = []).
Proof.
  intros HB1 HB2 Hlist.
  rewrite (create_batches_run _ _ _ _ _ _ HB2 Hlist). simpl.
  eexists; split; [reflexivity|].
  set (docs := accepted_documents input_bucket listing).
  split; [|split; [apply partition_concat|]].
  - unfold partition.
    destruct (partition_invariant B docs HB1) as (_ & Hle & Hnil & Hpos & Hcount).
    destruct (fold_left _ docs _) as [batches batch]. simpl in *.
    rewrite length_app. simpl.
    destruct docs as [|doc docs'] eqn:Edocs.
    + specialize (Hnil eq_refl). injection Hnil as -> ->. simpl.
      unfold ceil_div. rewrite Z.max_l; [done|].
      assert (Hd : (0 + B - 1) / B = 0) by (apply Z.div_small; lia). lia.
    + assert (Hpos' : 1 <= Z.of_nat (length batch)) by (apply Hpos; done).
      rewrite Hcount. rewrite ceil_div_exact by lia. lia.
  - unfold partition.
    destruct (partition_invariant B docs HB1) as (Hfull & _ & Hnil & Hpos & _).
    destruct (fold_left _ docs _) as [batches batch]. simpl in *.
    split.
    + intros Hin. destruct docs as [|doc docs']; [done|exfalso].
      apply elem_of_app in Hin as [Hin|Hin].
      * rewrite Forall_forall in Hfull. specialize (Hfull _ Hin).
        simpl in Hfull. lia.
      * apply list_elem_of_singleton in Hin. subst batch.
        assert (1 <= 0) by (apply Hpos; done). lia.
    + intros E. specialize (Hnil E). injection Hnil as -> ->.
      apply list_elem_of_here.
Qed.

(** C8 (amended). For a batch size B with 1 <= B <= BATCH_MAX_FILES, every
    batch of [create_batches] has at most B documents, every batch but the
    last has exactly B, the last is empty only when nothing was accepted,
    every document of every batch has an accepted content type, and the
    batches hold as many documents as there are accepted objects, so that
    skipped objects take no room. *)
Theorem create_batches_bounded
    (input_bucket input_prefix : string) (B : Z) (w : world cloud)
    (listing : list Blob) (c : cloud) :
  1 <= B -> B <= BATCH_MAX_FILES ->
  storage_list_blobs input_bucket input_prefix (remote w) = (Ok listing, c) ->
  exists batches,
    (create_batches input_bucket input_prefix B w).1 = Ok batches
    /\ Forall (fun batch => Z.of_nat (length batch) <= B) batches
    /\ (forall i batch,
           batches !! i = Some batch -> (S i < length batches)%nat ->
           Z.of_nat (length batch) = B)
    /\ (last batches = Some [] ->
        List.filter (fun blob => accepted (content_type blob)) listing = [])
    /\ Forall (Forall (fun doc => accepted (mime_type doc) = true)) batches
    /\ length (concat batches)
       = length (List.filter (fun blob => accepted (content_type blob))
                             listing).
Proof.
  intros HB1 HB2 Hlist.
  rewrite (create_batches_run _ _ _ _ _ _ HB2 Hlist). simpl.
  eexists; split; [reflexivity|].
  set (docs := accepted_documents input_bucket listing).
  pose proof (partition_concat B docs) as Hconcat.
  assert (Hacc : Forall (fun doc => accepted (mime_type doc) = true) docs).
  { unfold docs, accepted_documents. apply Forall_fmap, Forall_forall.
    intros blob Hin. apply list_elem_of_In, filter_In in Hin. simpl. tauto. }
  unfold partition in *.
  destruct (partition_invariant B docs HB1) as (Hfull & Hle & Hnil & Hpos & _).
  destruct (fold_left _ docs _) as [batches batch]. simpl in *.
  repeat split.
  - apply Forall_app. split.
    + eapply Forall_impl; [exact Hfull|]. simpl. intros; lia.
    + by constructor.
  - intros i b Hi Hlt. rewrite length_app in Hlt. simpl in Hlt.
    rewrite lookup_app_l in Hi by lia.
    rewrite Forall_forall in Hfull. apply Hfull.
    eapply list_elem_of_lookup_2, Hi.
  - rewrite last_snoc. intros [= ->].
    destruct (List.filter _ listing) as [|blob blobs] eqn:E; [done|].
    assert (1 <= 0); [|lia]. apply Hpos.
    unfold docs, accepted_documents. by rewrite E.
  - rewrite <- Hconcat in Hacc. clear -Hacc.
    revert Hacc. generalize (batches ++ [batch]). intros l.
    induction l as [|b l IH]; simpl; intros Hacc; [constructor|].
    apply Forall_app in Hacc as [Hb Hl]. constructor; [done|by apply IH].
  - rewrite Hconcat. unfold docs, accepted_documents. by rewrite length_fmap.
Qed.

(** C2. A batch size above BATCH_MAX_FILES makes [create_batches] raise
    ValueError with the state of the services and the log unchanged:
    nothing was listed or called.  A batch size at or below the ceiling
    raises no such error: the listing is made, its failure if any is the
    outcome, and otherwise the outcome is the partition with the batch
    size as given. *)
Theorem create_batches_checks_ceiling
    (input_bucket input_prefix : string) (B : Z) (w : world cloud) :
  (BATCH_MAX_FILES < B ->
   create_batches input_bucket input_prefix B w
   = (Raise (ValueError ("Batch size must be less than "
                         +:+ pretty BATCH_MAX_FILES
                         +:+ ". You provided " +:+ pretty B)), w))
  /\ (B <= BATCH_MAX_FILES ->
      let (r, c) := storage_list_blobs input_bucket input_prefix (remote w) in
      create_batches input_bucket input_prefix B w
      = match r with
        | Ok listing =>
            (Ok (partition B (accepted_documents input_bucket listing)),
             {| remote := c;
                log := log w
                       ++ [EListBlobs input_bucket input_prefix (Ok listing)]
                       ++ skip_notes listing |})
        | Raise e =>
            (Raise e,
             {| remote := c;
                log := log w
                       ++ [EListBlobs input_bucket input_prefix (Raise e)] |})
        end).
Proof.
  split.
  - intros HB. unfold create_batches.
    destruct (Z.gtb_spec B BATCH_MAX_FILES); [reflexivity|lia].
  - intros HB.
    destruct (storage_list_blobs _ _ _) as [[listing|e] c] eqn:Hlist.
    + by apply create_batches_run.
    + by apply create_batches_listing_fails.
Qed.

End PartitionClaims.

(** C1 as worded fails: two accepted objects and a batch size of two give
    one batch, not ceil(2/2) + 1 = 2, and its last batch is not empty. *)
Lemma create_batches_no_trailing_empty_batch :
  2 <= @BATCH_MAX_FILES Fake.consts
  /\ storage_list_blobs "in" "" (remote Fake.two_pdfs)
     = (Ok Fake.two_pdfs_listing, remote Fake.two_pdfs)
  /\ Z.of_nat (length (accepted_documents "in" Fake.two_pdfs_listing)) = 2
  /\ exists batches,
      (create_batches "in" "" 2 Fake.two_pdfs).1 = Ok batches
      /\ Z.of_nat (length batches) <> ceil_div 2 2 + 1
      /\ last batches <> Some [].
Proof.
  split; [by vm_compute|]. split; [vm_compute; reflexivity|].
  split; [reflexivity|].
  eexists. split; [vm_compute; reflexivity|].
  split; by vm_compute.
Qed.

Lemma create_batches_covers_listing_witness :
  1 <= 2 /\ 2 <= @BATCH_MAX_FILES Fake.consts
  /\ exists batches,
      (create_batches "in" "" 2 Fake.two_pdfs).1 = Ok batches
      /\ Z.of_nat (length batches)
         = Z.max 1 (ceil_div
                      (Z.of_nat (length (accepted_documents
                                           "in" Fake.two_pdfs_listing)))
                      2)
      /\ concat batches = accepted_documents "in" Fake.two_pdfs_listing
      /\ ([] ∈ batches <-> accepted_documents "in" Fake.two_pdfs_listing = []).
Proof.
  split; [lia|]. split; [by vm_compute|].
  apply (create_batches_covers_listing
           "in" "" 2 Fake.two_pdfs Fake.two_pdfs_listing
           (remote Fake.two_pdfs)).
  - lia.
  - by vm_compute.
  - vm_compute. reflexivity.
Defined.

(** C8 as worded fails: a batch size of zero passes the check, and the two
    accepted objects end up in one batch of two, above the maximum of
    zero. *)
Lemma create_batches_zero_size_overfull :
  0 <= @BATCH_MAX_FILES Fake.consts
  /\ storage_list_blobs "in" "" (remote Fake.two_pdfs)
     = (Ok Fake.two_pdfs_listing, remote Fake.two_pdfs)
  /\ exists batches batch,
      (create_batches "in" "" 0 Fake.two_pdfs).1 = Ok batches
      /\ batch ∈ batches
      /\ ~ Z.of_nat (length batch) <= 0.
Proof.
  split; [by vm_compute|]. split; [vm_compute; reflexivity|].
  eexists _, (make_gcs_document "in" <$> Fake.two_pdfs_listing).
  split; [vm_compute; reflexivity|].
  split; [|by vm_compute].
  apply list_elem_of_further, list_elem_of_here.
Qed.

Lemma create_batches_bounded_witness :
  1 <= 1 /\ 1 <= @BATCH_MAX_FILES Fake.consts
  /\ exists batches,
      (create_batches "in" "" 1 Fake.two_pdfs).1 = Ok batches
      /\ Forall (fun batch => Z.of_nat (length batch) <= 1) batches
      /\ (forall i batch,
             batches !! i = Some batch -> (S i < length batches)%nat ->
             Z.of_nat (length batch) = 1)
      /\ (last batches = Some [] ->
          List.filter (fun blob => accepted (content_type blob))
                      Fake.two_pdfs_listing = [])
      /\ Forall (Forall (fun doc => accepted (mime_type doc) = true)) batches
      /\ length (concat batches)
         = length (List.filter (fun blob => accepted (content_type blob))
                               Fake.two_pdfs_listing).
Proof.
  split; [lia|]. split; [by vm_compute|].
  apply (create_batches_bounded
           "in" "" 1 Fake.two_pdfs Fake.two_pdfs_listing
           (remote Fake.two_pdfs)).
  - lia.
  - by vm_compute.
  - vm_compute. reflexivity.
Defined.

Lemma create_batches_checks_ceiling_witness :
  @BATCH_MAX_FILES Fake.consts < 51 /\ 50 <= @BATCH_MAX_FILES Fake.consts
  /\ (create_batches "in" "" 51 Fake.two_pdfs).1
     = Raise (ValueError "Batch size must be less than 50. You provided 51")
  /\ (create_batches "in" "" 50 Fake.two_pdfs).1
     = Ok [make_gcs_document "in" <$> Fake.two_pdfs_listing].
Proof.
  assert (Hhi : @BATCH_MAX_FILES Fake.consts < 51) by by vm_compute.
  assert (Hlo : 50 <= @BATCH_MAX_FILES Fake.consts) by by vm_compute.
  split; [exact Hhi|]. split; [exact Hlo|]. split.
  - rewrite (proj1 (create_batches_checks_ceiling "in" "" 51 Fake.two_pdfs) Hhi).
    reflexivity.
  - pose proof (proj2 (create_batches_checks_ceiling "in" "" 50 Fake.two_pdfs) Hlo)
      as Hrun.
    change (storage_list_blobs "in" "" (remote Fake.two_pdfs))
      with (Fake.list_blobs "in" "" (remote Fake.two_pdfs)) in Hrun.
    replace (Fake.list_blobs "in" "" (remote Fake.two_pdfs))
      with (Ok Fake.two_pdfs_listing, remote Fake.two_pdfs) in Hrun
      by (vm_compute; reflexivity).
    rewrite Hrun. vm_compute. reflexivity.
Defined.

(** ** Batch submitter *)

Section SubmitterFacts.
Context `{Consts} {cloud : Type} `{Collaborators cloud}.

(** One turn of the loop over the batches. *)
Lemma submit_body_run (gcs_output_uri : string) (i : nat)
    (batch : list GcsDocument) (operation_ids : list string)
    (w : world cloud) :
  let note :=
    EPrint ("Processing Document Batch " +:+ pretty i +:+ ": "
            +:+ pretty (length batch) +:+ " documents") in
  let request := request_for gcs_output_uri batch in
  submit_body docai_client resource_name gcs_output_uri i batch
              operation_ids w
  = match client_batch_process_documents docai_client request (remote w) with
    | (Raise e, c1) =>
        (Raise e,
         {| remote := c1;
            log := log w ++ [note; ESubmit docai_client request (Raise e)] |})
    | (Ok operation, c1) =>
        let waiting :=
          EPrint ("Waiting for operation " +:+ operation_name operation) in
        match operation_result operation TIMEOUT c1 with
        | (Ok _, c2) =>
            (Ok (operation_ids ++ [operation_name operation]),
             {| remote := c2;
                log := log w
                       ++ [note; ESubmit docai_client request (Ok operation);
                           waiting; EWait operation TIMEOUT (Ok tt)] |})
        | (Raise e, c2) =>
            (Raise e,
             {| remote := c2;
                log := log w
                       ++ [note; ESubmit docai_client request (Ok operation);
                           waiting; EWait operation TIMEOUT (Raise e)] |})
        end
    end.
Proof.
  unfold submit_body, bind, print, call, ret, emit. simpl.
  fold (request_for gcs_output_uri batch).
  destruct (client_batch_process_documents
              docai_client (request_for gcs_output_uri batch) (remote w))
    as [[operation|e] c1]; simpl.
  - destruct (operation_result operation TIMEOUT c1) as [[[]|e] c2]; simpl;
      by rewrite <- !app_assoc.
  - by rewrite <- !app_assoc.
Qed.

(** The loop over the batches: the jobs of a prefix of the batches were
    accepted and completed, and either this prefix is all of them and
    their identifiers are returned, or the job of the next batch failed
    and nothing follows it. *)
Lemma submit_loop (gcs_output_uri : string) (batches : list (list GcsDocument)) :
  forall (i : nat) (operation_ids : list string) (w : world cloud),
    let (r, w') :=
      for_enumerate i batches
        (submit_body docai_client resource_name gcs_output_uri)
        operation_ids w in
    exists done operations tail,
      length operations = length done
      /\ calls (log w')
         = calls (log w)
           ++ concat (zip_with (completed_job gcs_output_uri) done operations)
           ++ tail
      /\ ((r = Ok (operation_ids ++ (operation_name <$> operations))
           /\ done = batches /\ tail = [])
          \/ (exists e batch rest,
                 r = Raise e /\ batches = done ++ batch :: rest
                 /\ failed_job gcs_output_uri batch e tail)).
Proof.
  induction batches as [|batch batches IH]; intros i ids w.
  { simpl. exists [], [], []. simpl. rewrite !app_nil_r.
    split; [done|]. split; [done|]. by left. }
  simpl. unfold bind. rewrite submit_body_run.
  destruct (client_batch_process_documents
              docai_client (request_for gcs_output_uri batch) (remote w))
    as [[operation|e] c1]; cbv beta zeta iota.
  - destruct (operation_result operation TIMEOUT c1) as [[[]|e] c2];
      cbv beta zeta iota.
    + match goal with
      | |- context [for_enumerate (S i) batches ?b ?ids' ?w1] =>
          specialize (IH (S i) ids' w1);
          destruct (for_enumerate (S i) batches b ids' w1) as [r w']
      end.
      destruct IH as (done & operations & tail & Hlen & Hcalls & Hcases).
      exists (batch :: done), (operation :: operations), tail.
      split; [simpl; by rewrite Hlen|]. split.
      * rewrite Hcalls. simpl. rewrite !calls_app. simpl.
        rewrite <- !app_assoc. reflexivity.
      * destruct Hcases as [(-> & -> & ->)|(e & b & rest & -> & -> & Hfail)].
        -- left. simpl. by rewrite <- app_assoc.
        -- right. exists e, b, rest. done.
    + exists [], [], [ESubmit docai_client (request_for gcs_output_uri batch)
                              (Ok operation);
                      EWait operation TIMEOUT (Raise e)].
      split; [done|]. split.
      * simpl. rewrite !calls_app. reflexivity.
      * right. exists e, batch, batches. repeat split. right. by eexists.
  - exists [], [], [ESubmit docai_client (request_for gcs_output_uri batch)
                            (Raise e)].
    split; [done|]. split.
    + simpl. rewrite !calls_app. reflexivity.
    + right. exists e, batch, batches. repeat split. by left.
Qed.

(** C7. When [create_batches] raises, so does the submitter.  Otherwise
    the remote calls it adds are, batch by batch and in batch order, one
    submission followed by one wait; when every job is accepted and
    completes within the timeout there is exactly one such pair per batch
    and the result is the list of the operation identifiers in submission
    order; when a submission fails or a wait fails or times out, that
    error is the result, the failed call is the last call, and no later
    batch is submitted. *)
Theorem batch_process_documents_one_job_per_batch
    (gcs_output_uri input_bucket input_prefix : string) (B : Z)
    (w : world cloud) :
  match create_batches input_bucket input_prefix B w with
  | (Raise e, w1) =>
      _batch_process_documents gcs_output_uri input_bucket input_prefix B w
      = (Raise e, w1)
  | (Ok batches, w1) =>
      let (r, w') :=
        _batch_process_documents gcs_output_uri input_bucket input_prefix B w in
      exists done operations tail,
        length operations = length done
        /\ calls (log w')
           = calls (log w1)
             ++ concat (zip_with (completed_job gcs_output_uri)
                                 done operations)
             ++ tail
        /\ ((r = Ok (operation_name <$> operations)
             /\ done = batches /\ tail = [])
            \/ (exists e batch rest,
                   r = Raise e /\ batches = done ++ batch :: rest
                   /\ failed_job gcs_output_uri batch e tail))
  end.
Proof.
  unfold _batch_process_documents, bind.
  destruct (create_batches _ _ _ _) as [[batches|e] w1]; [|reflexivity].
  apply (submit_loop gcs_output_uri batches 0%nat [] w1).
Qed.

(** C10. When no object of the listing has an accepted content type, the
    submitter still submits exactly one job, whose list of input
    documents is empty; a result that is a list of identifiers has
    exactly one, and this is the returned result whenever the service
    accepts that job and completes it. *)
Theorem batch_process_documents_empty_job
    (gcs_output_uri input_bucket input_prefix : string) (B : Z)
    (w : world cloud) (listing : list Blob) (c : cloud) :
  B <= BATCH_MAX_FILES ->
  storage_list_blobs input_bucket input_prefix (remote w) = (Ok listing, c) ->
  List.filter (fun blob => accepted (content_type blob)) listing = [] ->
  let (r, w') :=
    _batch_process_documents gcs_output_uri input_bucket input_prefix B w in
  submissions (log w')
  = submissions (log w) ++ [request_for gcs_output_uri []]
  /\ input_documents (request_for gcs_output_uri []) = []
  /\ (forall operation_ids, r = Ok operation_ids ->
      exists id, operation_ids = [id])
  /\ (forall operation c1 c2,
         client_batch_process_documents
           docai_client (request_for gcs_output_uri []) c = (Ok operation, c1) ->
         operation_result operation TIMEOUT c1 = (Ok tt, c2) ->
         r = Ok [operation_name operation]).
Proof.
  intros HB Hlist Hnone.
  unfold _batch_process_documents, bind.
  rewrite (create_batches_run _ _ _ _ _ _ HB Hlist).
  unfold accepted_documents. rewrite Hnone. simpl.
  unfold bind. fold docai_client resource_name.
  rewrite submit_body_run. simpl.
  assert (Hnotes : submissions (skip_notes listing) = []).
  { unfold skip_notes.
    generalize (List.filter
                  (fun blob => negb (accepted (content_type blob))) listing).
    intros blobs. induction blobs as [|blob blobs IH]; [done|].
    simpl. exact IH. }
  assert (Hsub : forall evs,
             submissions
               ((log w ++ EListBlobs input_bucket input_prefix (Ok listing)
                       :: skip_notes listing) ++ evs)
             = submissions (log w) ++ submissions evs).
  { intros evs. unfold submissions in *.
    change (EListBlobs input_bucket input_prefix (Ok listing)
              :: skip_notes listing)
      with ([EListBlobs input_bucket input_prefix (Ok listing)]
              ++ skip_notes listing).
    rewrite !omap_app, Hnotes. simpl. by rewrite app_nil_r. }
  destruct (client_batch_process_documents
              docai_client (request_for gcs_output_uri []) c)
    as [[operation|e] c1].
  - destruct (operation_result operation TIMEOUT c1) as [[[]|e] c2] eqn:Hwait;
      simpl; rewrite Hsub;
      (split; [reflexivity|]); (split; [reflexivity|]); split.
    + intros ids [= <-]. by eexists.
    + intros op c1' c2' [= <- <-] _. reflexivity.
    + intros ids [=].
    + intros op c1' c2' [= <- <-] Hw. congruence.
  - simpl. rewrite Hsub. split; [reflexivity|]. split; [reflexivity|]. split.
    + intros ids [=].
    + intros op c1' c2' [=].
Qed.

End SubmitterFacts.

Lemma batch_process_documents_empty_job_witness :
  50 <= @BATCH_MAX_FILES Fake.consts
  /\ storage_list_blobs "in" "" (remote Fake.only_text_file)
     = (Ok Fake.only_text_file_listing, remote Fake.only_text_file)
  /\ List.filter (fun blob => accepted (content_type blob))
                 Fake.only_text_file_listing = []
  /\ let (r, w') :=
       _batch_process_documents "gs://out/results" "in" "" 50
                                Fake.only_text_file in
     submissions (log w')
     = submissions (log Fake.only_text_file)
       ++ [request_for "gs://out/results" []]
     /\ input_documents (request_for "gs://out/results" []) = []
     /\ (forall operation_ids, r = Ok operation_ids ->
         exists id, operation_ids = [id])
     /\ (forall operation c1 c2,
            client_batch_process_documents
              docai_client (request_for "gs://out/results" [])
              (remote Fake.only_text_file) = (Ok operation, c1) ->
            operation_result operation TIMEOUT c1 = (Ok tt, c2) ->
            r = Ok [operation_name operation]).
Proof.
  split; [by vm_compute|]. split; [vm_compute; reflexivity|].
  split; [vm_compute; reflexivity|].
  apply (batch_process_documents_empty_job
           "gs://out/results" "in" "" 50 Fake.only_text_file
           Fake.only_text_file_listing (remote Fake.only_text_file)).
  - by vm_compute.
  - vm_compute. reflexivity.
  - vm_compute. reflexivity.
Defined.

(** On the sample state the one job is accepted and completes. *)
Example batch_process_documents_empty_job_runs :
  (_batch_process_documents "gs://out/results" "in" "" 50
                            Fake.only_text_file).1
  = Ok ["operations/1"].
Proof. vm_compute. reflexivity. Qed.

(** ** Result harvester *)

Lemma remove_large_fields_both (fields : list (string * json)) :
  has_key "pages" fields = true -> has_key "text" fields = true ->
  remove_large_fields (JObject fields)
  = Ok (JObject (remove_key "text" (remove_key "pages" fields))).
Proof.
  intros Hpages Htext.
  assert (Hstill : has_key "text" (remove_key "pages" fields) = true).
  { unfold has_key, remove_key in *. rewrite existsb_exists in *.
    destruct Htext as ([k v] & Hin & Hk). exists (k, v).
    split; [|done]. apply filter_In. split; [done|]. simpl in *.
    apply String.eqb_eq in Hk. subst k. reflexivity. }
  unfold remove_large_fields, py_del. rewrite Hpages. by rewrite Hstill.
Qed.

Lemma remove_large_fields_no_pages (fields : list (string * json)) :
  has_key "pages" fields = false ->
  remove_large_fields (JObject fields) = Ok (JObject fields).
Proof. intros Hpages. unfold remove_large_fields, py_del. by rewrite Hpages. Qed.

Lemma remove_large_fields_not_a_dict (j : json) :
  (forall fields, j <> JObject fields) -> remove_large_fields j = Raise TypeError.
Proof. intros Hj. destruct j; try reflexivity. by destruct (Hj fields). Qed.

Section HarvesterFacts.
Context {cloud : Type} `{Collaborators cloud}.

(** A record that decodes to a dict and does not fit the schema is
    skipped with a note. *)
Lemma harvest_body_schema_failure blob document_protos (w : world cloud)
    blob_data c document_dict stripped :
  contains ".json" (name blob) = true ->
  blob_download_as_text blob (remote w) = (Ok blob_data, c) ->
  json_loads blob_data = Ok document_dict ->
  remove_large_fields document_dict = Ok stripped ->
  Document_from_json (json_dumps stripped) = Raise ParseError ->
  harvest_body blob document_protos w
  = (Ok document_protos,
     {| remote := c;
        log := log w ++ [EPrint ("Fetching from " +:+ name blob);
                         EDownload blob (Ok blob_data);
                         EPrint ("Failed to parse " +:+ name blob)] |}).
Proof.
  intros Hjson Hdown Hloads Hstrip Hparse.
  unfold harvest_body. rewrite Hjson. run_monad.
  rewrite Hdown. run_monad. rewrite Hloads, Hstrip, Hparse. run_monad.
  by rewrite <- !app_assoc.
Qed.

(** A record that [json.loads] rejects ends the loop turn with the
    decoder's exception: the call is not inside a [try]. *)
Lemma harvest_body_decode_failure blob document_protos (w : world cloud)
    blob_data c e :
  contains ".json" (name blob) = true ->
  blob_download_as_text blob (remote w) = (Ok blob_data, c) ->
  json_loads blob_data = Raise e ->
  harvest_body blob document_protos w
  = (Raise e,
     {| remote := c;
        log := log w ++ [EPrint ("Fetching from " +:+ name blob);
                         EDownload blob (Ok blob_data)] |}).
Proof.
  intros Hjson Hdown Hloads.
  unfold harvest_body. rewrite Hjson. run_monad.
  rewrite Hdown. run_monad. rewrite Hloads.
  by rewrite <- !app_assoc.
Qed.

(** The schema parser is given the record as [remove_large_fields] left
    it: unchanged when it has no "pages" key. *)
Lemma harvest_body_record_without_pages blob document_protos
    (w : world cloud) blob_data c fields document_proto :
  contains ".json" (name blob) = true ->
  blob_download_as_text blob (remote w) = (Ok blob_data, c) ->
  json_loads blob_data = Ok (JObject fields) ->
  has_key "pages" fields = false ->
  Document_from_json (json_dumps (JObject fields)) = Ok document_proto ->
  (harvest_body blob document_protos w).1
  = Ok (document_protos ++ [document_proto]).
Proof.
  intros Hjson Hdown Hloads Hpages Hparse.
  unfold harvest_body. rewrite Hjson. run_monad.
  rewrite Hdown. run_monad.
  rewrite Hloads, (remove_large_fields_no_pages _ Hpages), Hparse.
  reflexivity.
Qed.

End HarvesterFacts.

(** C3. The code at the failing input: an output directory with a record
    that parses and a record cut short.  The harvest raises the decoder's
    exception instead of returning the parsed document. *)
Theorem harvest_aborts_on_truncated_record :
  (get_document_protos_from_gcs "out" "results/" Fake.one_good_one_truncated).1
  = Raise JSONDecodeError
  /\ calls (log (get_document_protos_from_gcs
                   "out" "results/" Fake.one_good_one_truncated).2)
     = [ EListBlobs "out" "results/"
           (Ok [ {| bucket := "out"; name := "results/0.json";
                    content_type := "application/json" |};
                 {| bucket := "out"; name := "results/1.json";
                    content_type := "application/json" |} ]);
         EDownload {| bucket := "out"; name := "results/0.json";
                      content_type := "application/json" |} (Ok "{}");
         EDownload {| bucket := "out"; name := "results/1.json";
                      content_type := "application/json" |} (Ok "{") ].
Proof. split; vm_compute; reflexivity. Qed.

(** C9. The code at the failing input: a decoded record with a "text"
    field and no "pages" field.  The first [del] raises [KeyError], the
    second is skipped, and the record goes to the schema parser with its
    "text" field. *)
Theorem remove_large_fields_keeps_text_without_pages :
  remove_large_fields
    (JObject [("text", JString "Invoice 42"); ("entities", JArray [])])
  = Ok (JObject [("text", JString "Invoice 42"); ("entities", JArray [])])
  /\ has_key "text" [("text", JString "Invoice 42"); ("entities", JArray [])]
     = true.
Proof. split; reflexivity. Qed.

(** ** Cleanup and archive *)

Section CleanupFacts.
Context {cloud : Type} `{Collaborators cloud}.

(** The first loop queues the intermediate files and calls nothing. *)
Lemma queue_loop (blobs delete_queue : list Blob) (w : world cloud) :
  for_in blobs queue_body delete_queue w = (Ok (delete_queue ++ blobs), w).
Proof.
  revert delete_queue. induction blobs as [|blob blobs IH]; intros q; simpl.
  - by rewrite app_nil_r.
  - unfold bind, queue_body, ret. rewrite IH. by rewrite <- app_assoc.
Qed.

Lemma archive_body_run input_bucket archive_bucket source_blob delete_queue
    (w : world cloud) :
  let note :=
    EPrint ("Moving <Bucket: " +:+ input_bucket +:+ ">/"
            +:+ name source_blob +:+ " to " +:+ archive_bucket
            +:+ "/" +:+ name source_blob) in
  archive_body input_bucket archive_bucket source_blob delete_queue w
  = let (r, c) :=
      bucket_copy_blob input_bucket source_blob archive_bucket
                       (name source_blob) (remote w) in
    (match r with
     | Ok _ => Ok (delete_queue ++ [source_blob])
     | Raise e => Raise e
     end,
     {| remote := c;
        log := log w
               ++ [note; copy_call input_bucket archive_bucket r source_blob] |}).
Proof.
  unfold archive_body. run_monad.
  destruct (bucket_copy_blob _ _ _ _ (remote w)) as [[[]|e] c];
    by rewrite <- !app_assoc.
Qed.

(** The second loop: a blob joins the queue once its copy has succeeded;
    the first copy that fails ends the loop, and the queue with it. *)
Lemma archive_loop input_bucket archive_bucket (source_blobs : list Blob) :
  forall (delete_queue : list Blob) (w : world cloud),
    let (r, w') :=
      for_in source_blobs (archive_body input_bucket archive_bucket)
             delete_queue w in
    match r with
    | Ok delete_queue' =>
        delete_queue' = delete_queue ++ source_blobs
        /\ calls (log w')
           = calls (log w)
             ++ (copy_call input_bucket archive_bucket (Ok tt) <$> source_blobs)
    | Raise e =>
        exists copied blob rest,
          source_blobs = copied ++ blob :: rest
          /\ calls (log w')
             = calls (log w)
               ++ (copy_call input_bucket archive_bucket (Ok tt) <$> copied)
               ++ [copy_call input_bucket archive_bucket (Raise e) blob]
    end.
Proof.
  induction source_blobs as [|blob blobs IH]; intros q w; simpl.
  { by rewrite !app_nil_r. }
  unfold bind. rewrite archive_body_run.
  destruct (bucket_copy_blob _ _ _ _ (remote w)) as [[[]|e] c].
  - match goal with
    | |- context [for_in blobs ?b ?q' ?w1] =>
        specialize (IH q' w1); destruct (for_in blobs b q' w1) as [[q''|e] w']
    end; cbn [log] in IH; rewrite calls_app in IH; simpl in IH.
    + destruct IH as [-> ->]. split; [by rewrite <- app_assoc|].
      by rewrite <- app_assoc.
    + destruct IH as (copied & b & rest & -> & ->).
      exists (blob :: copied), b, rest. split; [done|].
      simpl. by rewrite <- !app_assoc.
  - exists [], blob, blobs. split; [done|].
    cbn [log]. rewrite calls_app. reflexivity.
Qed.

Lemma delete_body_run blob (w : world cloud) :
  delete_body blob tt w
  = let (r, c) := blob_delete blob (remote w) in
    (r, {| remote := c;
           log := log w ++ [EPrint ("Deleting " +:+ name blob);
                            delete_call r blob] |}).
Proof.
  unfold delete_body. run_monad.
  destruct (blob_delete blob (remote w)) as [r c]. by rewrite <- !app_assoc.
Qed.

(** The third loop: the first deletion that fails ends it. *)
Lemma delete_loop (delete_queue : list Blob) :
  forall (w : world cloud),
    let (r, w') := for_in delete_queue delete_body tt w in
    match r with
    | Ok _ =>
        calls (log w')
        = calls (log w) ++ (delete_call (Ok tt) <$> delete_queue)
    | Raise e =>
        exists deleted blob rest,
          delete_queue = deleted ++ blob :: rest
          /\ calls (log w')
             = calls (log w)
               ++ (delete_call (Ok tt) <$> deleted)
               ++ [delete_call (Raise e) blob]
    end.
Proof.
  induction delete_queue as [|blob blobs IH]; intros w; simpl.
  { by rewrite !app_nil_r. }
  unfold bind. rewrite delete_body_run.
  destruct (blob_delete blob (remote w)) as [[[]|e] c].
  - match goal with
    | |- context [for_in blobs ?b tt ?w1] =>
        specialize (IH w1); destruct (for_in blobs b tt w1) as [[[]|e] w']
    end; cbn [log] in IH; rewrite calls_app in IH; simpl in IH.
    + rewrite IH. by rewrite <- app_assoc.
    + destruct IH as (deleted & b & rest & -> & ->).
      exists (blob :: deleted), b, rest. split; [done|].
      simpl. by rewrite <- !app_assoc.
  - exists [], blob, blobs. split; [done|].
    cbn [log]. rewrite calls_app. reflexivity.
Qed.

(** Every execution of [cleanup_gcs] follows [cleanup_calls]. *)
Lemma cleanup_gcs_run
    input_bucket input_prefix output_bucket output_directory archive_bucket
    (w : world cloud) :
  let (r, w') :=
    cleanup_gcs input_bucket input_prefix output_bucket output_directory
                archive_bucket w in
  exists evs,
    calls (log w') = calls (log w) ++ evs
    /\ cleanup_calls input_bucket input_prefix output_bucket output_directory
                     archive_bucket r evs.
Proof.
  unfold cleanup_gcs, bind at 1, call at 1.
  destruct (storage_list_blobs output_bucket output_directory (remote w))
    as [[intermediate|e] c1]; cbn [remote log].
  2: { eexists. rewrite calls_app. split; [reflexivity|].
       apply output_listing_fails. }
  unfold bind at 1. rewrite queue_loop. simpl app.
  unfold bind at 1, call at 1. cbn [remote log].
  destruct (storage_list_blobs input_bucket input_prefix c1)
    as [[sources|e] c2].
  2: { eexists. cbn [log]. rewrite !calls_app, <- app_assoc.
       split; [reflexivity|]. apply input_listing_fails. }
  unfold bind at 1.
  match goal with
  | |- context [for_in sources ?b ?q ?w1] =>
      pose proof (archive_loop input_bucket archive_bucket sources q w1) as Harch;
      destruct (for_in sources b q w1) as [[queue|e] w2]
  end; cbn [log] in Harch; rewrite !calls_app, <- app_assoc in Harch;
    simpl in Harch.
  2: { destruct Harch as (copied & blob & rest & -> & Hcalls).
       rewrite <- app_assoc in Hcalls.
       eexists. split; [exact Hcalls|]. apply copy_fails. }
  destruct Harch as [-> Hcalls]. rewrite <- app_assoc in Hcalls.
  pose proof (delete_loop (intermediate ++ sources) w2) as Hdel.
  destruct (for_in (intermediate ++ sources) delete_body tt w2)
    as [[[]|e] w3].
  - eexists. rewrite Hdel, Hcalls, <- !app_assoc. split; [reflexivity|].
    apply cleanup_completes.
  - destruct Hdel as (deleted & blob & rest & Hqueue & Hdel).
    eexists. rewrite Hdel, Hcalls, <- !app_assoc. split; [reflexivity|].
    by apply (delete_fails _ _ _ _ _ _ _ _ _ rest).
Qed.

End CleanupFacts.

Section CleanupOrder.
Context {cloud : Type} `{Collaborators cloud}.

Lemma copies_are_not_deletions input_bucket archive_bucket r blobs :
  Forall (fun ev => is_delete ev = false)
         (copy_call input_bucket archive_bucket r <$> blobs).
Proof. apply Forall_fmap, Forall_forall. by intros. Qed.

Lemma deletions_are_not_copies r blobs :
  Forall (fun ev => is_copy ev = false) (delete_call r <$> blobs).
Proof. apply Forall_fmap, Forall_forall. by intros. Qed.

Lemma successful_copies input_bucket archive_bucket blobs :
  Forall (fun ev => failure ev = None)
         (copy_call input_bucket archive_bucket (Ok tt) <$> blobs).
Proof. apply Forall_fmap, Forall_forall. by intros. Qed.

Lemma successful_deletions blobs :
  Forall (fun ev => failure ev = None) (delete_call (Ok tt) <$> blobs).
Proof. apply Forall_fmap, Forall_forall. by intros. Qed.

(** In a list made of a part without deletions followed by a part
    without copies, every copy comes before every deletion. *)
Lemma copies_before_deletions (before after : list event) i j ev_d ev_c :
  Forall (fun ev => is_delete ev = false) before ->
  Forall (fun ev => is_copy ev = false) after ->
  (before ++ after) !! i = Some ev_d -> is_delete ev_d = true ->
  (before ++ after) !! j = Some ev_c -> is_copy ev_c = true ->
  (j < length before <= i)%nat.
Proof.
  intros Hbefore Hafter Hi Hd Hj Hc.
  rewrite Forall_forall in Hbefore. rewrite Forall_forall in Hafter.
  split.
  - destruct (decide (j < length before)%nat) as [|Hge]; [done|exfalso].
    rewrite lookup_app_r in Hj by lia.
    apply list_elem_of_lookup_2, Hafter in Hj. congruence.
  - destruct (decide (length before <= i)%nat) as [|Hlt]; [done|exfalso].
    rewrite lookup_app_l in Hi by lia.
    apply list_elem_of_lookup_2, Hbefore in Hi. congruence.
Qed.

(** What [cleanup_calls] says about the two phases. *)
Lemma cleanup_calls_phases
    input_bucket input_prefix output_bucket output_directory archive_bucket
    r evs :
  cleanup_calls input_bucket input_prefix output_bucket output_directory
                archive_bucket r evs ->
  exists before after,
    evs = before ++ after
    /\ Forall (fun ev => is_delete ev = false) before
    /\ Forall (fun ev => is_copy ev = false) after
    /\ Forall (fun ev => is_delete ev = true) after
    /\ (after <> [] ->
        exists intermediate_files source_blobs,
          before
          = [EListBlobs output_bucket output_directory (Ok intermediate_files);
             EListBlobs input_bucket input_prefix (Ok source_blobs)]
            ++ (copy_call input_bucket archive_bucket (Ok tt) <$> source_blobs)).
Proof.
  intros Hrun. destruct Hrun.
  - eexists _, []. rewrite app_nil_r. split; [reflexivity|].
    repeat split; try done. by repeat constructor.
  - eexists _, []. rewrite app_nil_r. split; [reflexivity|].
    repeat split; try done. by repeat constructor.
  - eexists _, []. rewrite app_nil_r. split; [reflexivity|].
    repeat split; try done.
    repeat (apply Forall_app; split); try by repeat constructor.
    apply copies_are_not_deletions.
  - exists ([EListBlobs output_bucket output_directory (Ok intermediate_files);
             EListBlobs input_bucket input_prefix (Ok source_blobs)]
            ++ (copy_call input_bucket archive_bucket (Ok tt) <$> source_blobs)),
           ((delete_call (Ok tt) <$> deleted) ++ [delete_call (Raise e) blob]).
    split; [by rewrite <- !app_assoc|].
    split; [|split; [|split]].
    + apply Forall_app; split; [by repeat constructor|].
      apply copies_are_not_deletions.
    + apply Forall_app; split; [apply deletions_are_not_copies|].
      by repeat constructor.
    + apply Forall_app; split; [|by repeat constructor].
      apply Forall_fmap, Forall_forall. by intros.
    + intros _. by eexists _, _.
  - exists ([EListBlobs output_bucket output_directory (Ok intermediate_files);
             EListBlobs input_bucket input_prefix (Ok source_blobs)]
            ++ (copy_call input_bucket archive_bucket (Ok tt) <$> source_blobs)),
           (delete_call (Ok tt) <$> intermediate_files ++ source_blobs).
    split; [by rewrite <- !app_assoc|].
    split; [|split; [|split]].
    + apply Forall_app; split; [by repeat constructor|].
      apply copies_are_not_deletions.
    + apply deletions_are_not_copies.
    + apply Forall_fmap, Forall_forall. by intros.
    + intros _. by eexists _, _.
Qed.

(** What [cleanup_calls] says about failures: a failed call is the last
    call, and its exception is the outcome. *)
Lemma cleanup_calls_failure
    input_bucket input_prefix output_bucket output_directory archive_bucket
    r evs i ev e :
  cleanup_calls input_bucket input_prefix output_bucket output_directory
                archive_bucket r evs ->
  evs !! i = Some ev -> failure ev = Some e ->
  r = Raise e /\ length evs = S i.
Proof.
  intros Hrun Hi Hfail.
  assert (Hlast : forall oks bad e',
             Forall (fun ev => failure ev = None) oks ->
             failure bad = Some e' ->
             (oks ++ [bad]) !! i = Some ev ->
             e' = e /\ length (oks ++ [bad]) = S i).
  { intros oks bad e' Hoks Hbad Hlook. rewrite Forall_forall in Hoks.
    destruct (decide (i < length oks)%nat) as [Hlt|Hge].
    - rewrite lookup_app_l in Hlook by done.
      apply list_elem_of_lookup_2, Hoks in Hlook. congruence.
    - rewrite lookup_app_r in Hlook by lia.
      destruct (i - length oks)%nat as [|n] eqn:En; simpl in Hlook; [|done].
      injection Hlook as <-. rewrite length_app. simpl.
      split; [congruence|lia]. }
  destruct Hrun.
  - destruct (Hlast [] (EListBlobs output_bucket output_directory (Raise e0))
                    e0) as [-> Hlen];
      [by constructor|done|exact Hi|done].
  - destruct (Hlast [EListBlobs output_bucket output_directory
                                (Ok intermediate_files)]
                    (EListBlobs input_bucket input_prefix (Raise e0)) e0)
      as [-> Hlen];
      [by repeat constructor|done|exact Hi|done].
  - rewrite app_assoc in Hi |- *.
    match type of Hi with
    | (?oks ++ [?bad]) !! _ = _ =>
        destruct (Hlast oks bad e0) as [-> Hlen]; [|done|exact Hi|done]
    end.
    apply Forall_app; split; [by repeat constructor|].
    apply successful_copies.
  - rewrite !app_assoc in Hi |- *.
    match type of Hi with
    | (?oks ++ [?bad]) !! _ = _ =>
        destruct (Hlast oks bad e0) as [-> Hlen]; [|done|exact Hi|done]
    end.
    repeat (apply Forall_app; split); try by repeat constructor.
    + apply successful_copies.
    + apply successful_deletions.
  - exfalso.
    assert (Hall : Forall (fun ev => failure ev = None)
              ([EListBlobs output_bucket output_directory
                           (Ok intermediate_files);
                EListBlobs input_bucket input_prefix (Ok source_blobs)]
               ++ (copy_call input_bucket archive_bucket (Ok tt)
                     <$> source_blobs)
               ++ (delete_call (Ok tt) <$> intermediate_files ++ source_blobs))).
    { repeat (apply Forall_app; split); try by repeat constructor.
      - apply successful_copies.
      - apply successful_deletions. }
    rewrite Forall_forall in Hall.
    apply list_elem_of_lookup_2, Hall in Hi. congruence.
Qed.

(** C6. In every execution of [cleanup_gcs], every deletion comes after
    every copy; when a deletion is attempted at all, each blob of the
    input listing has a successful copy to the archive bucket, under its
    own name, earlier in the calls; and in the loop that archives, a blob
    is in the delete queue after a turn only if its copy succeeded: the
    loop that ends normally has extended the queue by exactly the blobs
    it went through and has made a successful copy of each. *)
Theorem cleanup_gcs_copies_before_deleting
    (input_bucket input_prefix output_bucket output_directory
     archive_bucket : string) (w : world cloud) :
  (let (r, w') :=
     cleanup_gcs input_bucket input_prefix output_bucket output_directory
                 archive_bucket w in
   exists evs,
     calls (log w') = calls (log w) ++ evs
     /\ (forall i j ev_d ev_c,
            evs !! i = Some ev_d -> is_delete ev_d = true ->
            evs !! j = Some ev_c -> is_copy ev_c = true ->
            (j < i)%nat)
     /\ (forall i ev_d source_blobs blob,
            evs !! i = Some ev_d -> is_delete ev_d = true ->
            evs !! 1%nat
            = Some (EListBlobs input_bucket input_prefix (Ok source_blobs)) ->
            blob ∈ source_blobs ->
            exists j,
              (j < i)%nat
              /\ evs !! j
                 = Some (copy_call input_bucket archive_bucket (Ok tt) blob)))
  /\ (forall blobs delete_queue delete_queue' (w0 w1 : world cloud),
         for_in blobs (archive_body input_bucket archive_bucket)
                delete_queue w0 = (Ok delete_queue', w1) ->
         delete_queue' = delete_queue ++ blobs
         /\ calls (log w1)
            = calls (log w0)
              ++ (copy_call input_bucket archive_bucket (Ok tt) <$> blobs)).
Proof.
  split.
  - pose proof (cleanup_gcs_run input_bucket input_prefix output_bucket
                  output_directory archive_bucket w) as Hrun.
    destruct (cleanup_gcs _ _ _ _ _ w) as [r w'].
    destruct Hrun as (evs & Hcalls & Hrun). exists evs.
    split; [exact Hcalls|].
    destruct (cleanup_calls_phases _ _ _ _ _ _ _ Hrun)
      as (before & after & -> & Hbefore & Hafter & Hdels & Hshape).
    split.
    + intros i j ev_d ev_c Hi Hd Hj Hc.
      pose proof (copies_before_deletions _ _ _ _ _ _
                    Hbefore Hafter Hi Hd Hj Hc). lia.
    + intros i ev_d source_blobs blob Hi Hd Hsecond Hin.
      assert (Hge : (length before <= i)%nat).
      { destruct (decide (length before <= i)%nat) as [|Hlt]; [done|exfalso].
        rewrite lookup_app_l in Hi by lia. rewrite Forall_forall in Hbefore.
        apply list_elem_of_lookup_2, Hbefore in Hi. congruence. }
      destruct Hshape as (intermediate & sources & ->).
      { intros ->. rewrite app_nil_r in Hi.
        apply lookup_lt_Some in Hi. lia. }
      simpl in Hsecond. injection Hsecond as <-.
      apply list_elem_of_lookup_1 in Hin as [k Hk].
      exists (2 + k)%nat. split.
      * apply lookup_lt_Some in Hk. simpl in Hge.
        rewrite length_fmap in Hge. lia.
      * simpl. rewrite lookup_app_l.
        -- by rewrite list_lookup_fmap, Hk.
        -- rewrite length_fmap. by apply lookup_lt_Some in Hk.
  - intros blobs q q' w0 w1 Hloop.
    pose proof (archive_loop input_bucket archive_bucket blobs q w0) as Harch.
    rewrite Hloop in Harch. exact Harch.
Qed.

End CleanupOrder.

(** ** Cleanup on the in-memory storage *)

Section MonadInversion.
Context {cloud : Type}.

Lemma bind_inv_ok {A B} (m : M cloud A) (k : A -> M cloud B) w b w' :
  bind m k w = (Ok b, w') ->
  exists a w1, m w = (Ok a, w1) /\ k a w1 = (Ok b, w').
Proof.
  unfold bind. destruct (m w) as [[a|e] w1]; [|done]. intros E. by exists a, w1.
Qed.

Lemma call_inv_ok {A} (f : cloud -> outcome A * cloud) ev (w : world cloud)
    a w' :
  call f ev w = (Ok a, w') ->
  exists c, f (remote w) = (Ok a, c)
            /\ w' = {| remote := c; log := log w ++ [ev (Ok a)] |}.
Proof.
  unfold call. destruct (f (remote w)) as [r c]. intros [= -> <-]. by exists c.
Qed.

Lemma surjective_pairing_ok {A} (run : outcome A * world cloud) a :
  run.1 = Ok a -> run = (Ok a, run.2).
Proof. destruct run as [r w]. simpl. by intros ->. Qed.

End MonadInversion.

Module FakeFacts.
Import Fake.

Lemma filter_sublist {A} (f : A -> bool) (l : list A) :
  List.filter f l `sublist_of` l.
Proof.
  induction l as [|x l IH]; simpl; [constructor|].
  destruct (f x); by constructor.
Qed.

Lemma key_handle (entry : string * string * object) :
  key (handle entry) = entry.1.
Proof. by destruct entry as [[b n] o]. Qed.

(** A listing succeeds on an existing bucket, changes nothing, and holds
    one handle for each object of the bucket under the prefix. *)
Lemma list_blobs_spec bucket_name prefix (c : cloud) :
  if bool_decide (bucket_name ∈ buckets c) then
    exists listing,
      list_blobs bucket_name prefix c = (Ok listing, c)
      /\ NoDup (key <$> listing)
      /\ (forall blob,
             blob ∈ listing <->
             bucket blob = bucket_name
             /\ String.prefix prefix (name blob) = true
             /\ exists o, objects c !! key blob = Some o
                          /\ content_type blob = object_content_type o)
  else exists e, list_blobs bucket_name prefix c = (Raise e, c).
Proof.
  unfold list_blobs. case_bool_decide; [|by eexists].
  eexists. split; [reflexivity|]. split.
  - rewrite merge_sort_Permutation.
    eapply sublist_NoDup; [|apply (fmap_sublist key); apply filter_sublist].
    rewrite <- list_fmap_compose.
    rewrite (list_fmap_ext (key ∘ handle) fst (map_to_list (objects c)));
      [apply NoDup_fst_map_to_list|].
    intros i entry _. apply key_handle.
  - intros blob. rewrite merge_sort_Permutation.
    rewrite list_elem_of_In, filter_In, <- list_elem_of_In, list_elem_of_fmap.
    unfold under. rewrite andb_true_iff, String.eqb_eq. split.
    + intros [([[b n] o] & -> & Hin) [Hb Hp]].
      apply elem_of_map_to_list in Hin. simpl in *.
      split; [done|]. split; [done|]. exists o. by subst b.
    + intros (Hb & Hp & o & Hlook & Hct). split; [|done].
      exists (key blob, o). split.
      * destruct blob as [b n t]. simpl in *. by subst t.
      * by apply elem_of_map_to_list.
Qed.

(** A copy that succeeds adds the destination and removes nothing. *)
Lemma copy_blob_ok source_bucket blob destination_bucket new_name
    (c c' : cloud) :
  copy_blob source_bucket blob destination_bucket new_name c = (Ok tt, c') ->
  buckets c' = buckets c
  /\ forall k, is_Some (objects c' !! k)
               <-> is_Some (objects c !! k) \/ k = (destination_bucket, new_name).
Proof.
  unfold copy_blob.
  destruct (objects c !! (source_bucket, name blob)) as [o|]; [|done].
  case_bool_decide; [|done]. intros [= <-]. simpl. split; [done|].
  intros k. rewrite lookup_insert. case_decide; subst; split; eauto.
  intros [Hk|Hk]; [done|congruence].
Qed.

(** A deletion succeeds exactly on an object that is there, and removes
    it alone. *)
Lemma delete_spec blob (c : cloud) :
  match objects c !! key blob with
  | Some _ =>
      exists c', delete blob c = (Ok tt, c')
                 /\ buckets c' = buckets c
                 /\ objects c' = base.delete (key blob) (objects c)
  | None => delete blob c = (not_found, c)
  end.
Proof.
  unfold delete, key. destruct (objects c !! (bucket blob, name blob));
    [|done]. by eexists.
Qed.

End FakeFacts.

Section CleanupOnFake.
Import Fake FakeFacts.

Lemma call_ok {A} (f : cloud -> outcome A * cloud) ev (w : world cloud) a c :
  f (remote w) = (Ok a, c) ->
  call f ev w = (Ok a, {| remote := c; log := log w ++ [ev (Ok a)] |}).
Proof. intros E. unfold call. by rewrite E. Qed.

(** A listing that succeeds is the one [list_blobs_spec] describes. *)
Lemma list_blobs_ok bucket_name prefix (c c' : cloud) listing :
  list_blobs bucket_name prefix c = (Ok listing, c') ->
  c' = c
  /\ bucket_name ∈ buckets c
  /\ NoDup (key <$> listing)
  /\ (forall blob,
         blob ∈ listing <->
         bucket blob = bucket_name
         /\ String.prefix prefix (name blob) = true
         /\ exists o, objects c !! key blob = Some o
                      /\ content_type blob = object_content_type o).
Proof.
  intros Hlist. pose proof (list_blobs_spec bucket_name prefix c) as Hspec.
  case_bool_decide as Hin.
  - destruct Hspec as (l & Hl & Hnodup & Hmem).
    rewrite Hl in Hlist. by injection Hlist as <- <-.
  - destruct Hspec as (e & He). congruence.
Qed.

(** The archive loop, when it ends normally, has added the archive
    copies and removed nothing. *)
Lemma archive_loop_store input_bucket archive_bucket (blobs : list Blob) :
  forall delete_queue delete_queue' (w w' : world cloud),
    for_in blobs (archive_body input_bucket archive_bucket) delete_queue w
    = (Ok delete_queue', w') ->
    buckets (remote w') = buckets (remote w)
    /\ forall k,
        is_Some (objects (remote w') !! k)
        <-> is_Some (objects (remote w) !! k)
            \/ exists blob, blob ∈ blobs /\ k = (archive_bucket, name blob).
Proof.
  induction blobs as [|blob blobs IH]; intros q q' w w' Hloop; simpl in Hloop.
  { injection Hloop as <- <-. split; [done|]. intros k. split; [eauto|].
    intros [Hk|(b & Hb & _)]; [done|]. by apply elem_of_nil in Hb. }
  apply bind_inv_ok in Hloop as (q1 & w1 & Hbody & Hloop).
  rewrite archive_body_run in Hbody.
  change (bucket_copy_blob input_bucket blob archive_bucket (name blob)
                           (remote w))
    with (copy_blob input_bucket blob archive_bucket (name blob) (remote w))
    in Hbody.
  destruct (copy_blob _ _ _ _ (remote w)) as [[[]|e] c] eqn:Hcopy; [|done].
  injection Hbody as <- <-.
  apply copy_blob_ok in Hcopy as [Hbuckets Hobjects].
  apply IH in Hloop as [Hbuckets' Hobjects']. cbn [remote] in *.
  split; [congruence|]. intros k. rewrite Hobjects', Hobjects. split.
  - intros [[Hk | ->]|(b & Hb & ->)]; [by left| |].
    + right. exists blob. split; [apply list_elem_of_here|done].
    + right. exists b. split; [by apply list_elem_of_further|done].
  - intros [Hk|(b & Hb & ->)]; [by left; left|].
    apply elem_of_cons in Hb as [->|Hb]; [by left; right|].
    right. by exists b.
Qed.

(** The delete loop, when it ends normally, has left nothing of its
    queue and added nothing. *)
Lemma delete_loop_store (delete_queue : list Blob) :
  forall (w w' : world cloud),
    for_in delete_queue delete_body tt w = (Ok tt, w') ->
    buckets (remote w') = buckets (remote w)
    /\ forall k,
        is_Some (objects (remote w') !! k) ->
        is_Some (objects (remote w) !! k) /\ k ∉ key <$> delete_queue.
Proof.
  induction delete_queue as [|blob blobs IH]; intros w w' Hloop;
    simpl in Hloop.
  { injection Hloop as <-. split; [done|]. intros k Hk. split; [done|].
    apply not_elem_of_nil. }
  apply bind_inv_ok in Hloop as ([] & w1 & Hbody & Hloop).
  rewrite delete_body_run in Hbody.
  change (blob_delete blob (remote w)) with (delete blob (remote w)) in Hbody.
  pose proof (delete_spec blob (remote w)) as Hspec.
  destruct (objects (remote w) !! key blob) as [o|].
  - destruct Hspec as (c & Hdel & Hbuckets & Hobjects).
    rewrite Hdel in Hbody. injection Hbody as <-.
    apply IH in Hloop as [Hbuckets' Hobjects']. cbn [remote] in *.
    split; [congruence|]. intros k Hk.
    apply Hobjects' in Hk as [Hk Hnotin].
    rewrite Hobjects, lookup_delete in Hk. case_decide as Hkey; [by destruct Hk|].
    split; [done|]. rewrite fmap_cons. apply not_elem_of_cons. done.
  - rewrite Hspec in Hbody. done.
Qed.

(** Deleting distinct objects that are all there succeeds. *)
Lemma delete_loop_succeeds (delete_queue : list Blob) :
  NoDup (key <$> delete_queue) ->
  forall (w : world cloud),
    (forall blob, blob ∈ delete_queue ->
                  is_Some (objects (remote w) !! key blob)) ->
    exists w', for_in delete_queue delete_body tt w = (Ok tt, w').
Proof.
  induction delete_queue as [|blob blobs IH]; intros Hnodup w Hthere; simpl.
  { by eexists. }
  rewrite fmap_cons in Hnodup. apply NoDup_cons in Hnodup as [Hfresh Hnodup].
  unfold bind. rewrite delete_body_run.
  change (blob_delete blob (remote w)) with (delete blob (remote w)).
  pose proof (delete_spec blob (remote w)) as Hspec.
  destruct (Hthere blob (list_elem_of_here _ _)) as [o Ho]. rewrite Ho in Hspec.
  destruct Hspec as (c & -> & _ & Hobjects).
  apply (IH Hnodup). cbn [remote]. intros b Hb.
  rewrite Hobjects, lookup_delete_ne.
  - apply Hthere. by apply list_elem_of_further.
  - intros Hkey. apply Hfresh. rewrite Hkey. by apply list_elem_of_fmap_2.
Qed.

(** After a cleanup that completed, a second cleanup with the same
    arguments completes too: it finds no input object, copies nothing, and
    deletes what the output listing then holds. *)
Lemma cleanup_gcs_again
    input_bucket input_prefix output_bucket output_directory archive_bucket
    (w w1 : world cloud) :
  cleanup_gcs input_bucket input_prefix output_bucket output_directory
              archive_bucket w = (Ok tt, w1) ->
  exists intermediate_files w2,
    cleanup_gcs input_bucket input_prefix output_bucket output_directory
                archive_bucket w1 = (Ok tt, w2)
    /\ calls (log w2)
       = calls (log w1)
         ++ [EListBlobs output_bucket output_directory (Ok intermediate_files);
             EListBlobs input_bucket input_prefix (Ok [])]
         ++ (delete_call (Ok tt) <$> intermediate_files).
Proof.
  intros Hrun. unfold cleanup_gcs in Hrun.
  apply bind_inv_ok in Hrun as (inter & wa & Hl1 & Hrun).
  apply call_inv_ok in Hl1 as (c1 & Hl1 & ->).
  apply bind_inv_ok in Hrun as (q1 & wb & Hq & Hrun).
  rewrite queue_loop in Hq. injection Hq as <- <-.
  apply bind_inv_ok in Hrun as (sources & wc & Hl2 & Hrun).
  apply call_inv_ok in Hl2 as (c2 & Hl2 & ->). cbn [remote] in Hl2.
  apply bind_inv_ok in Hrun as (q2 & wd & Harch & Hdel).
  apply list_blobs_ok in Hl1 as (-> & Hob & _ & _).
  apply list_blobs_ok in Hl2 as (-> & Hib & _ & Hsources).
  match type of Harch with
  | for_in _ _ ?q ?w0 = _ =>
      pose proof (archive_loop input_bucket archive_bucket sources q w0)
        as Hqueue
  end.
  rewrite Harch in Hqueue. destruct Hqueue as [-> _].
  apply archive_loop_store in Harch as [Hbuckets_a Hobjects_a].
  apply delete_loop_store in Hdel as [Hbuckets_d Hobjects_d].
  cbn [remote] in *.
  assert (Hbuckets : buckets (remote w1) = buckets (remote w)) by congruence.
  (* the second run *)
  pose proof (list_blobs_spec output_bucket output_directory (remote w1))
    as Hout. rewrite Hbuckets, bool_decide_eq_true_2 in Hout by done.
  destruct Hout as (inter2 & Hout & Hnodup2 & Hinter2).
  pose proof (list_blobs_spec input_bucket input_prefix (remote w1)) as Hin.
  rewrite Hbuckets, bool_decide_eq_true_2 in Hin by done.
  destruct Hin as (sources2 & Hin & _ & Hsources2).
  assert (sources2 = []) as ->.
  { destruct sources2 as [|blob rest]; [done|exfalso].
    destruct (proj1 (Hsources2 blob) (list_elem_of_here _ _))
      as (Hb & Hp & o & Ho & _).
    destruct (Hobjects_d (key blob)) as [Hwas Hnotq]; [by eexists|].
    apply Hnotq. rewrite fmap_app. apply elem_of_app. right.
    apply Hobjects_a in Hwas as [[o0 Ho0]|(b & Hb' & Hkey)].
    - apply list_elem_of_fmap.
      exists {| bucket := bucket blob; name := name blob;
                content_type := object_content_type o0 |}.
      split; [done|]. apply Hsources. simpl. split; [done|]. split; [done|].
      exists o0. done.
    - apply list_elem_of_fmap. exists b. split; [|done].
      pose proof (proj1 (Hsources b) Hb') as (Hbb & _).
      unfold key in *. injection Hkey as Hk1 Hk2. congruence. }
  destruct (delete_loop_succeeds inter2 Hnodup2
              {| remote := remote w1;
                 log := (log w1 ++ [EListBlobs output_bucket output_directory
                                               (Ok inter2)])
                        ++ [EListBlobs input_bucket input_prefix (Ok [])] |})
    as (w2 & Hdel2).
  { cbn [remote]. intros blob Hblob.
    apply Hinter2 in Hblob as (_ & _ & o & Ho & _). by eexists. }
  exists inter2, w2. split.
  - unfold cleanup_gcs.
    erewrite bind_ok; [|apply call_ok; exact Hout].
    erewrite bind_ok; [|apply queue_loop].
    erewrite bind_ok; [|apply call_ok; exact Hin].
    erewrite bind_ok; [|reflexivity].
    exact Hdel2.
  - pose proof (delete_loop inter2
                  {| remote := remote w1;
                     log := (log w1 ++ [EListBlobs output_bucket
                                          output_directory (Ok inter2)])
                            ++ [EListBlobs input_bucket input_prefix
                                           (Ok [])] |}) as Hcalls.
    rewrite Hdel2 in Hcalls. rewrite Hcalls. cbn [log].
    rewrite !calls_app, <- !app_assoc. reflexivity.
Qed.

End CleanupOnFake.

(** C5 (amended). A copy or a deletion that fails during cleanup is not
    recovered: in every execution, a remote call that fails is the last
    call made and its exception is what [cleanup_gcs] raises, so no
    remaining object is attempted; this holds for the NotFound of an object
    that is already deleted as for any other failure.  On the in-memory
    storage, whose listings show the copies and deletions made so far,
    running cleanup again with the same arguments after a run that
    completed also completes: it finds no input object, copies nothing and
    deletes the blobs the output listing then holds. *)
Theorem cleanup_gcs_failure_is_fatal :
  (forall (cloud : Type) (services : Collaborators cloud)
          (input_bucket input_prefix output_bucket output_directory
           archive_bucket : string) (w : world cloud),
      let (r, w') :=
        cleanup_gcs input_bucket input_prefix output_bucket output_directory
                    archive_bucket w in
      exists evs,
        calls (log w') = calls (log w) ++ evs
        /\ forall i ev e,
            evs !! i = Some ev -> failure ev = Some e ->
            r = Raise e /\ length evs = S i)
  /\ (forall (input_bucket input_prefix output_bucket output_directory
              archive_bucket : string) (w w1 : world Fake.cloud),
         cleanup_gcs input_bucket input_prefix output_bucket output_directory
                     archive_bucket w = (Ok tt, w1) ->
         exists intermediate_files w2,
           cleanup_gcs input_bucket input_prefix output_bucket
                       output_directory archive_bucket w1 = (Ok tt, w2)
           /\ calls (log w2)
              = calls (log w1)
                ++ [EListBlobs output_bucket output_directory
                               (Ok intermediate_files);
                    EListBlobs input_bucket input_prefix (Ok [])]
                ++ (delete_call (Ok tt) <$> intermediate_files)).
Proof.
  split.
  - intros cloud services ib ip ob od ab w.
    pose proof (cleanup_gcs_run ib ip ob od ab w) as Hrun.
    destruct (cleanup_gcs ib ip ob od ab w) as [r w'].
    destruct Hrun as (evs & Hcalls & Hrun). exists evs. split; [done|].
    intros i ev e Hi Hfail. eapply cleanup_calls_failure; eauto.
  - intros ib ip ob od ab w w1. apply cleanup_gcs_again.
Qed.

(** C5 as worded fails.  With an archive bucket that does not exist the
    first copy fails: cleanup raises, the second input is never tried and
    nothing is deleted.  With an output prefix that overlaps the input
    prefix one blob is queued twice: its second deletion finds it already
    deleted, cleanup raises, and the blob queued after it stays. *)
Lemma cleanup_gcs_stops_at_failed_call :
  ((cleanup_gcs "in" "" "out" "results/" "attic" Fake.ready_for_cleanup).1
   = Raise (ApiError "NotFound")
   /\ calls (log (cleanup_gcs "in" "" "out" "results/" "attic"
                              Fake.ready_for_cleanup).2)
      = [ EListBlobs "out" "results/" (Ok [Fake.result_0]);
          EListBlobs "in" "" (Ok [Fake.a_pdf; Fake.b_pdf]);
          copy_call "in" "attic" (Raise (ApiError "NotFound")) Fake.a_pdf ])
  /\ ((cleanup_gcs "in" "" "in" "a" "archive" Fake.ready_for_cleanup).1
      = Raise (ApiError "NotFound")
      /\ calls (log (cleanup_gcs "in" "" "in" "a" "archive"
                                 Fake.ready_for_cleanup).2)
         = [ EListBlobs "in" "a" (Ok [Fake.a_pdf]);
             EListBlobs "in" "" (Ok [Fake.a_pdf; Fake.b_pdf]);
             copy_call "in" "archive" (Ok tt) Fake.a_pdf;
             copy_call "in" "archive" (Ok tt) Fake.b_pdf;
             delete_call (Ok tt) Fake.a_pdf;
             delete_call (Raise (ApiError "NotFound")) Fake.a_pdf ]
      /\ is_Some (Fake.objects
                    (remote (cleanup_gcs "in" "" "in" "a" "archive"
                                         Fake.ready_for_cleanup).2)
                  !! ("in", "b.pdf"))).
Proof.
  split; [split; vm_compute; reflexivity|].
  split; [vm_compute; reflexivity|].
  split; [vm_compute; reflexivity|].
  vm_compute. by eexists.
Qed.

Lemma cleanup_gcs_failure_is_fatal_witness :
  (cleanup_gcs "in" "" "out" "results/" "archive" Fake.ready_for_cleanup).1
  = Ok tt
  /\ exists intermediate_files w2,
      cleanup_gcs "in" "" "out" "results/" "archive"
                  (cleanup_gcs "in" "" "out" "results/" "archive"
                               Fake.ready_for_cleanup).2
      = (Ok tt, w2)
      /\ calls (log w2)
         = calls (log (cleanup_gcs "in" "" "out" "results/" "archive"
                                   Fake.ready_for_cleanup).2)
           ++ [EListBlobs "out" "results/" (Ok intermediate_files);
               EListBlobs "in" "" (Ok [])]
           ++ (delete_call (Ok tt) <$> intermediate_files).
Proof.
  split; [vm_compute; reflexivity|].
  apply (proj2 cleanup_gcs_failure_is_fatal
               "in" "" "out" "results/" "archive" Fake.ready_for_cleanup).
  apply surjective_pairing_ok. vm_compute. reflexivity.
Defined.

Lemma cleanup_gcs_copies_before_deleting_witness :
  for_in [Fake.a_pdf; Fake.b_pdf] (archive_body "in" "archive") [Fake.result_0]
         Fake.ready_for_cleanup
  = (Ok [Fake.result_0; Fake.a_pdf; Fake.b_pdf],
     (for_in [Fake.a_pdf; Fake.b_pdf] (archive_body "in" "archive")
             [Fake.result_0] Fake.ready_for_cleanup).2)
  /\ [Fake.result_0; Fake.a_pdf; Fake.b_pdf]
     = [Fake.result_0] ++ [Fake.a_pdf; Fake.b_pdf]
  /\ calls (log (for_in [Fake.a_pdf; Fake.b_pdf] (archive_body "in" "archive")
                        [Fake.result_0] Fake.ready_for_cleanup).2)
     = calls (log Fake.ready_for_cleanup)
       ++ (copy_call "in" "archive" (Ok tt) <$> [Fake.a_pdf; Fake.b_pdf]).
Proof.
  assert (Hloop :
            for_in [Fake.a_pdf; Fake.b_pdf] (archive_body "in" "archive")
                   [Fake.result_0] Fake.ready_for_cleanup
            = (Ok [Fake.result_0; Fake.a_pdf; Fake.b_pdf],
               (for_in [Fake.a_pdf; Fake.b_pdf] (archive_body "in" "archive")
                       [Fake.result_0] Fake.ready_for_cleanup).2))
    by (vm_compute; reflexivity).
  split; [exact Hloop|].
  exact (proj2 (cleanup_gcs_copies_before_deleting
                  "in" "" "out" "results/" "archive" Fake.ready_for_cleanup)
               _ _ _ _ _ Hloop).
Defined.

(** * Further properties of the code *)

(** ** Batch partitioner, any batch size *)

Section PartitionMore.
Context `{Consts}.

(** A negative batch size is never reached by [len(batch)]: the one open
    batch takes everything. *)
Lemma partition_negative B docs :
  B < 0 -> fold_left (close_and_add B) docs ([], []) = ([], docs).
Proof.
  intros HB. induction docs as [|doc docs IH] using rev_ind; [reflexivity|].
  rewrite close_and_add_fold_snoc, IH. unfold close_and_add. simpl.
  destruct (Z.eqb_spec (Z.of_nat (length docs)) B); [lia|reflexivity].
Qed.

(** With a batch size of zero the empty batch is closed at the first
    document, and the batch opened then is never closed. *)
Lemma partition_zero doc docs :
  fold_left (close_and_add 0) (doc :: docs) ([], []) = ([[]], doc :: docs).
Proof.
  induction docs as [|d docs IH] using rev_ind; [reflexivity|].
  rewrite app_comm_cons, close_and_add_fold_snoc, IH.
  unfold close_and_add. simpl. reflexivity.
Qed.

(** Batches that are all of length [n] but the last are the consecutive
    slices of their concatenation. *)
Lemma full_batches_are_slices {A} (n : nat) (full : list (list A)) :
  Forall (fun batch => length batch = n) full ->
  forall (rest : list A) i batch,
    full !! i = Some batch ->
    batch = take n (drop (i * n) (concat full ++ rest)).
Proof.
  induction 1 as [|b full Hb Hfull IH]; intros rest i batch Hi; [done|].
  change (concat (b :: full)) with (b ++ concat full). rewrite <- app_assoc.
  destruct i as [|i].
  - injection Hi as <-. change (0 * n)%nat with 0%nat.
    rewrite drop_0. by rewrite take_app_length'.
  - change (S i * n)%nat with (n + i * n)%nat. rewrite <- Hb at 2.
    rewrite drop_app_add. apply IH. exact Hi.
Qed.

Lemma partition_length B docs :
  1 <= B ->
  Z.of_nat (length (partition B docs))
  = Z.max 1 (ceil_div (Z.of_nat (length docs)) B).
Proof.
  intros HB. unfold partition.
  destruct (partition_invariant B docs HB) as (_ & Hle & Hnil & Hpos & Hcount).
  destruct (fold_left _ docs _) as [batches batch]. simpl in *.
  rewrite length_app. simpl.
  destruct docs as [|doc docs'].
  - specialize (Hnil eq_refl). injection Hnil as -> ->. simpl.
    unfold ceil_div. rewrite Z.max_l; [done|].
    assert (Hd : (0 + B - 1) / B = 0) by (apply Z.div_small; lia). lia.
  - assert (Hpos' : 1 <= Z.of_nat (length batch)) by (apply Hpos; done).
    rewrite Hcount. rewrite ceil_div_exact by lia. lia.
Qed.

End PartitionMore.

Section PartitionExtras.
Context `{Consts} {cloud : Type} `{Collaborators cloud}.

(** X1. For every batch size that passes the check, also zero and
    negative ones, [create_batches] returns at least one batch, and the
    batches put end to end are exactly the documents of the accepted blobs
    in listing order: no accepted object is dropped, repeated or moved. *)
Theorem create_batches_loses_nothing
    (input_bucket input_prefix : string) (B : Z) (w : world cloud)
    (listing : list Blob) (c : cloud) :
  B <= BATCH_MAX_FILES ->
  storage_list_blobs input_bucket input_prefix (remote w) = (Ok listing, c) ->
  exists batches,
    (create_batches input_bucket input_prefix B w).1 = Ok batches
    /\ batches <> []
    /\ concat batches = accepted_documents input_bucket listing.
Proof.
  intros HB Hlist. rewrite (create_batches_run _ _ _ _ _ _ HB Hlist). simpl.
  eexists. split; [reflexivity|]. split; [|apply partition_concat].
  unfold partition. by destruct (fold_left _ _ _).1.
Qed.

(** X2. The batch size has no lower bound.  A negative size yields a
    single batch holding every accepted document.  A size of zero yields
    one empty batch when nothing is accepted, and otherwise an empty batch
    followed by one batch holding every accepted document. *)
Theorem create_batches_degenerate_sizes
    (input_bucket input_prefix : string) (B : Z) (w : world cloud)
    (listing : list Blob) (c : cloud) :
  B <= BATCH_MAX_FILES -> B <= 0 ->
  storage_list_blobs input_bucket input_prefix (remote w) = (Ok listing, c) ->
  (create_batches input_bucket input_prefix B w).1
  = Ok (if decide (B = 0 /\ accepted_documents input_bucket listing <> [])
        then [[]; accepted_documents input_bucket listing]
        else [accepted_documents input_bucket listing]).
Proof.
  intros HB Hneg Hlist. rewrite (create_batches_run _ _ _ _ _ _ HB Hlist).
  simpl. f_equal. unfold partition.
  destruct (decide (B = 0 /\ _)) as [[-> Hdocs]|Hnot].
  - destruct (accepted_documents input_bucket listing) as [|doc docs]; [done|].
    by rewrite partition_zero.
  - destruct (decide (B = 0)) as [->|HB0].
    + destruct (accepted_documents input_bucket listing) as [|doc docs];
        [reflexivity|]. exfalso. apply Hnot. done.
    + rewrite partition_negative by lia. reflexivity.
Qed.

(** X3. For a batch size B with 1 <= B <= BATCH_MAX_FILES the assignment
    is positional: the batch at index i holds the accepted documents at
    positions i*B to i*B + B - 1 of the listing order, as many as exist. *)
Theorem create_batches_positional
    (input_bucket input_prefix : string) (B : Z) (w : world cloud)
    (listing : list Blob) (c : cloud) :
  1 <= B -> B <= BATCH_MAX_FILES ->
  storage_list_blobs input_bucket input_prefix (remote w) = (Ok listing, c) ->
  exists batches,
    (create_batches input_bucket input_prefix B w).1 = Ok batches
    /\ forall i batch,
        batches !! i = Some batch ->
        batch = take (Z.to_nat B)
                     (drop (i * Z.to_nat B)
                           (accepted_documents input_bucket listing)).
Proof.
  intros HB1 HB2 Hlist. rewrite (create_batches_run _ _ _ _ _ _ HB2 Hlist).
  simpl. eexists. split; [reflexivity|].
  set (docs := accepted_documents input_bucket listing).
  pose proof (partition_concat B docs) as Hconcat. unfold partition in *.
  destruct (partition_invariant B docs HB1) as (Hfull & Hle & _ & _ & _).
  destruct (fold_left _ docs _) as [batches batch]. simpl in *.
  rewrite concat_app in Hconcat. simpl in Hconcat.
  rewrite app_nil_r in Hconcat.
  assert (Hfull' : Forall (fun b => length b = Z.to_nat B) batches).
  { eapply Forall_impl; [exact Hfull|]. simpl. intros; lia. }
  intros i b Hi. rewrite <- Hconcat.
  destruct (decide (i < length batches)%nat) as [Hlt|Hge].
  - rewrite lookup_app_l in Hi by done.
    by apply full_batches_are_slices.
  - rewrite lookup_app_r in Hi by lia.
    destruct (i - length batches)%nat as [|n] eqn:En; simpl in Hi; [|done].
    injection Hi as <-.
    assert (i = length batches) as -> by lia.
    assert (Hlen : length (concat batches) = (length batches * Z.to_nat B)%nat).
    { clear -Hfull'. induction Hfull' as [|b l Hb Hl IH]; [done|].
      simpl. rewrite length_app, IH, Hb. lia. }
    rewrite <- Hlen, drop_app_length, take_ge; [done|lia].
Qed.

End PartitionExtras.

Lemma create_batches_loses_nothing_witness :
  -3 <= @BATCH_MAX_FILES Fake.consts
  /\ storage_list_blobs "in" "" (remote Fake.two_pdfs)
     = (Ok Fake.two_pdfs_listing, remote Fake.two_pdfs)
  /\ exists batches,
      (create_batches "in" "" (-3) Fake.two_pdfs).1 = Ok batches
      /\ batches <> []
      /\ concat batches = accepted_documents "in" Fake.two_pdfs_listing.
Proof.
  split; [by vm_compute|]. split; [vm_compute; reflexivity|].
  apply (create_batches_loses_nothing
           "in" "" (-3) Fake.two_pdfs Fake.two_pdfs_listing
           (remote Fake.two_pdfs)).
  - by vm_compute.
  - vm_compute. reflexivity.
Defined.

Lemma create_batches_degenerate_sizes_witness :
  0 <= @BATCH_MAX_FILES Fake.consts /\ 0 <= 0
  /\ storage_list_blobs "in" "" (remote Fake.two_pdfs)
     = (Ok Fake.two_pdfs_listing, remote Fake.two_pdfs)
  /\ (create_batches "in" "" 0 Fake.two_pdfs).1
     = Ok (if decide (0 = 0 /\ accepted_documents "in" Fake.two_pdfs_listing
                                <> [])
           then [[]; accepted_documents "in" Fake.two_pdfs_listing]
           else [accepted_documents "in" Fake.two_pdfs_listing]).
Proof.
  split; [by vm_compute|]. split; [lia|]. split; [vm_compute; reflexivity|].
  apply (create_batches_degenerate_sizes
           "in" "" 0 Fake.two_pdfs Fake.two_pdfs_listing
           (remote Fake.two_pdfs)).
  - by vm_compute.
  - lia.
  - vm_compute. reflexivity.
Defined.

Lemma create_batches_positional_witness :
  1 <= 1 /\ 1 <= @BATCH_MAX_FILES Fake.consts
  /\ storage_list_blobs "in" "" (remote Fake.two_pdfs)
     = (Ok Fake.two_pdfs_listing, remote Fake.two_pdfs)
  /\ exists batches,
      (create_batches "in" "" 1 Fake.two_pdfs).1 = Ok batches
      /\ forall i batch,
          batches !! i = Some batch ->
          batch = take (Z.to_nat 1)
                       (drop (i * Z.to_nat 1)
                             (accepted_documents "in" Fake.two_pdfs_listing)).
Proof.
  split; [lia|]. split; [by vm_compute|]. split; [vm_compute; reflexivity|].
  apply (create_batches_positional
           "in" "" 1 Fake.two_pdfs Fake.two_pdfs_listing
           (remote Fake.two_pdfs)).
  - lia.
  - by vm_compute.
  - vm_compute. reflexivity.
Defined.

(** ** Batch submitter, composed with the partitioner *)

Section SubmitterMore.
Context `{Consts} {cloud : Type} `{Collaborators cloud}.

Lemma submissions_app (l1 l2 : list event) :
  submissions (l1 ++ l2) = submissions l1 ++ submissions l2.
Proof. apply omap_app. Qed.

(** Printed lines are not submissions. *)
Lemma submissions_calls (evs : list event) :
  submissions (calls evs) = submissions evs.
Proof.
  induction evs as [|ev evs IH]; [done|].
  destruct ev; simpl; try done; by rewrite IH.
Qed.

Lemma submissions_completed_jobs gcs_output_uri
    (done : list (list GcsDocument)) :
  forall operations : list Operation,
    length operations = length done ->
    submissions (concat (zip_with (completed_job gcs_output_uri)
                                  done operations))
    = request_for gcs_output_uri <$> done.
Proof.
  induction done as [|batch done IH]; intros [|op ops] Hlen; try done.
  simpl in *. f_equal. apply IH. lia.
Qed.

Lemma submissions_skip_notes (listing : list Blob) :
  submissions (skip_notes listing) = [].
Proof.
  unfold skip_notes.
  generalize (List.filter
                (fun blob => negb (accepted (content_type blob))) listing).
  intros blobs. induction blobs as [|blob blobs IH]; [done|]. exact IH.
Qed.

(** The requests of a run that returns: one per batch of the partition. *)
Lemma batch_process_documents_submissions
    gcs_output_uri input_bucket input_prefix B (w w' : world cloud)
    listing c operation_ids :
  B <= BATCH_MAX_FILES ->
  storage_list_blobs input_bucket input_prefix (remote w) = (Ok listing, c) ->
  _batch_process_documents gcs_output_uri input_bucket input_prefix B w
  = (Ok operation_ids, w') ->
  submissions (log w')
  = submissions (log w)
    ++ (request_for gcs_output_uri
          <$> partition B (accepted_documents input_bucket listing))
  /\ length operation_ids
     = length (partition B (accepted_documents input_bucket listing)).
Proof.
  intros HB Hlist Hrun. unfold _batch_process_documents, bind in Hrun.
  rewrite (create_batches_run _ _ _ _ _ _ HB Hlist) in Hrun.
  match type of Hrun with
  | for_enumerate ?i ?bs ?body ?ids ?w1 = _ =>
      pose proof (submit_loop gcs_output_uri bs i ids w1) as Hloop
  end.
  fold docai_client resource_name in Hrun. rewrite Hrun in Hloop.
  destruct Hloop as (done & ops & tail & Hlen & Hcalls & Hcases).
  destruct Hcases as [(Hids & -> & ->)|(e & b & rest & Hr & _)]; [|done].
  injection Hids as ->. rewrite app_nil_r in Hcalls. split.
  - rewrite <- (submissions_calls (log w')), Hcalls. cbn [log].
    rewrite submissions_app, submissions_calls, !submissions_app.
    rewrite submissions_skip_notes, submissions_completed_jobs by done.
    change (submissions [EListBlobs input_bucket input_prefix (Ok listing)])
      with (@nil BatchProcessRequest).
    by rewrite !app_nil_r.
  - simpl. by rewrite length_fmap.
Qed.

End SubmitterMore.

Section SubmitterExtras.
Context `{Consts} {cloud : Type} `{Collaborators cloud}.

(** X4. A batch size above BATCH_MAX_FILES makes the submitter raise the
    ValueError of [create_batches] with the services and the log untouched:
    nothing is listed and no job is submitted. *)
Theorem batch_process_documents_rejects_oversize
    (gcs_output_uri input_bucket input_prefix : string) (B : Z)
    (w : world cloud) :
  BATCH_MAX_FILES < B ->
  _batch_process_documents gcs_output_uri input_bucket input_prefix B w
  = (Raise (ValueError ("Batch size must be less than "
                        +:+ pretty BATCH_MAX_FILES
                        +:+ ". You provided " +:+ pretty B)), w).
Proof.
  intros HB. unfold _batch_process_documents, bind, create_batches.
  destruct (Z.gtb_spec B BATCH_MAX_FILES); [reflexivity|lia].
Qed.

(** X5. When the submitter returns, every accepted object was submitted
    exactly once: the input documents of the submitted requests, put end to
    end in submission order, are the documents of the accepted blobs in
    listing order.  Every request names the same processor and the same
    output location, and one identifier is returned per request. *)
Theorem batch_process_documents_submits_every_document
    (gcs_output_uri input_bucket input_prefix : string) (B : Z)
    (w w' : world cloud) (listing : list Blob) (c : cloud)
    (operation_ids : list string) :
  B <= BATCH_MAX_FILES ->
  storage_list_blobs input_bucket input_prefix (remote w) = (Ok listing, c) ->
  _batch_process_documents gcs_output_uri input_bucket input_prefix B w
  = (Ok operation_ids, w') ->
  exists requests,
    submissions (log w') = submissions (log w) ++ requests
    /\ concat (input_documents <$> requests)
       = accepted_documents input_bucket listing
    /\ Forall (fun request =>
                 request_name request
                 = processor_path PROJECT_ID LOCATION PROCESSOR_ID
                 /\ document_output_config request = gcs_output_uri) requests
    /\ length operation_ids = length requests.
Proof.
  intros HB Hlist Hrun.
  destruct (batch_process_documents_submissions _ _ _ _ _ _ _ _ _
              HB Hlist Hrun) as [Hsub Hlen].
  eexists. split; [exact Hsub|]. split; [|split].
  - rewrite <- list_fmap_compose.
    rewrite (list_fmap_ext (input_documents ∘ request_for gcs_output_uri) id)
      by done.
    rewrite list_fmap_id. apply partition_concat.
  - apply Forall_fmap, Forall_forall. by intros.
  - by rewrite length_fmap.
Qed.

(** X6. For a batch size B with 1 <= B <= BATCH_MAX_FILES and N accepted
    objects, a run of the submitter that returns has submitted
    max(1, ceil(N/B)) jobs and returns that many identifiers. *)
Theorem batch_process_documents_job_count
    (gcs_output_uri input_bucket input_prefix : string) (B : Z)
    (w w' : world cloud) (listing : list Blob) (c : cloud)
    (operation_ids : list string) :
  1 <= B -> B <= BATCH_MAX_FILES ->
  storage_list_blobs input_bucket input_prefix (remote w) = (Ok listing, c) ->
  _batch_process_documents gcs_output_uri input_bucket input_prefix B w
  = (Ok operation_ids, w') ->
  Z.of_nat (length operation_ids)
  = Z.max 1 (ceil_div
               (Z.of_nat (length (accepted_documents input_bucket listing))) B)
  /\ Z.of_nat (length (submissions (log w')))
     = Z.of_nat (length (submissions (log w)))
       + Z.max 1 (ceil_div
                    (Z.of_nat (length (accepted_documents input_bucket listing)))
                    B).
Proof.
  intros HB1 HB2 Hlist Hrun.
  destruct (batch_process_documents_submissions _ _ _ _ _ _ _ _ _
              HB2 Hlist Hrun) as [Hsub Hlen].
  rewrite Hlen, Hsub, length_app, length_fmap, Nat2Z.inj_add.
  by rewrite partition_length.
Qed.

End SubmitterExtras.

Lemma batch_process_documents_rejects_oversize_witness :
  @BATCH_MAX_FILES Fake.consts < 51
  /\ _batch_process_documents "gs://out/results" "in" "" 51
                              Fake.two_pdfs_two_jobs
     = (Raise (ValueError "Batch size must be less than 50. You provided 51"),
        Fake.two_pdfs_two_jobs).
Proof.
  assert (Hhi : @BATCH_MAX_FILES Fake.consts < 51) by by vm_compute.
  split; [exact Hhi|].
  exact (batch_process_documents_rejects_oversize
           "gs://out/results" "in" "" 51 Fake.two_pdfs_two_jobs Hhi).
Defined.

Lemma batch_process_documents_submits_every_document_witness :
  1 <= @BATCH_MAX_FILES Fake.consts
  /\ storage_list_blobs "in" "" (remote Fake.two_pdfs_two_jobs)
     = (Ok Fake.two_pdfs_listing, remote Fake.two_pdfs_two_jobs)
  /\ (_batch_process_documents "gs://out/results" "in" "" 1
                               Fake.two_pdfs_two_jobs).1
     = Ok ["operations/1"; "operations/2"]
  /\ exists requests,
      submissions
        (log (_batch_process_documents "gs://out/results" "in" "" 1
                                       Fake.two_pdfs_two_jobs).2)
      = submissions (log Fake.two_pdfs_two_jobs) ++ requests
      /\ concat (input_documents <$> requests)
         = accepted_documents "in" Fake.two_pdfs_listing
      /\ Forall (fun request =>
                   request_name request
                   = processor_path PROJECT_ID LOCATION PROCESSOR_ID
                   /\ document_output_config request = "gs://out/results")
                requests
      /\ length ["operations/1"; "operations/2"] = length requests.
Proof.
  split; [by vm_compute|]. split; [vm_compute; reflexivity|].
  split; [vm_compute; reflexivity|].
  apply (batch_process_documents_submits_every_document
           "gs://out/results" "in" "" 1 Fake.two_pdfs_two_jobs _
           Fake.two_pdfs_listing (remote Fake.two_pdfs_two_jobs)).
  - by vm_compute.
  - vm_compute. reflexivity.
  - apply surjective_pairing_ok. vm_compute. reflexivity.
Defined.

Lemma batch_process_documents_job_count_witness :
  1 <= 1 /\ 1 <= @BATCH_MAX_FILES Fake.consts
  /\ storage_list_blobs "in" "" (remote Fake.two_pdfs_two_jobs)
     = (Ok Fake.two_pdfs_listing, remote Fake.two_pdfs_two_jobs)
  /\ (_batch_process_documents "gs://out/results" "in" "" 1
                               Fake.two_pdfs_two_jobs).1
     = Ok ["operations/1"; "operations/2"]
  /\ Z.of_nat (length ["operations/1"; "operations/2"])
     = Z.max 1 (ceil_div
                  (Z.of_nat (length (accepted_documents
                                       "in" Fake.two_pdfs_listing))) 1)
  /\ Z.of_nat
       (length (submissions
                  (log (_batch_process_documents "gs://out/results" "in" "" 1
                                                 Fake.two_pdfs_two_jobs).2)))
     = Z.of_nat (length (submissions (log Fake.two_pdfs_two_jobs)))
       + Z.max 1 (ceil_div
                    (Z.of_nat (length (accepted_documents
                                         "in" Fake.two_pdfs_listing))) 1).
Proof.
  split; [lia|]. split; [by vm_compute|]. split; [vm_compute; reflexivity|].
  split; [vm_compute; reflexivity|].
  apply (batch_process_documents_job_count
           "gs://out/results" "in" "" 1 Fake.two_pdfs_two_jobs _
           Fake.two_pdfs_listing (remote Fake.two_pdfs_two_jobs)).
  - lia.
  - by vm_compute.
  - vm_compute. reflexivity.
  - apply surjective_pairing_ok. vm_compute. reflexivity.
Defined.

(** ** Result harvester, whole runs *)

Lemma prefix_spec (p s : string) :
  String.prefix p s = true <-> exists post, s = p +:+ post.
Proof.
  revert s. induction p as [|a p IH]; intros [|b s]; simpl.
  - split; [by exists ""|done].
  - split; [by exists (String b s)|done].
  - split; [done|by intros [post ?]].
  - destruct (ascii_dec a b) as [->|Hne].
    + rewrite IH. split; intros [post Hpost]; exists post.
      * by rewrite Hpost.
      * change (String b p +:+ post) with (String b (p +:+ post)) in Hpost.
        congruence.
    + split; [done|]. intros [post [= ? ?]]. done.
Qed.

(** [contains] is Python's substring test. *)
Lemma contains_spec (pat s : string) :
  contains pat s = true <-> exists pre post, s = pre +:+ pat +:+ post.
Proof.
  induction s as [|a s IH].
  - cbn [contains]. rewrite orb_false_r, prefix_spec. split.
    + intros [post Hpost]. by exists "", post.
    + intros (pre & post & Hs). destruct pre; [by exists post|done].
  - cbn [contains]. rewrite orb_true_iff, prefix_spec, IH. split.
    + intros [[post Hpost]|(pre & post & ->)].
      * by exists "", post.
      * by exists (String a pre), post.
    + intros ([|b pre] & post & Hs).
      * left. by exists post.
      * right. injection Hs as -> ->. by exists pre, post.
Qed.

Section HarvesterRuns.
Context {cloud : Type} `{Collaborators cloud}.

(** One turn of the loop over the output listing. *)
Lemma harvest_body_run blob document_protos (w : world cloud) :
  harvest_body blob document_protos w
  = let fetching := EPrint ("Fetching from " +:+ name blob) in
    if is_record blob then
      let (r, c) := blob_download_as_text blob (remote w) in
      match r with
      | Raise e =>
          (Raise e,
           {| remote := c;
              log := log w ++ [fetching; EDownload blob (Raise e)] |})
      | Ok blob_data =>
          match parse_record blob_data with
          | Ok (Some document_proto) =>
              (Ok (document_protos ++ [document_proto]),
               {| remote := c;
                  log := log w ++ [fetching; EDownload blob (Ok blob_data)] |})
          | Ok None =>
              (Ok document_protos,
               {| remote := c;
                  log := log w
                         ++ [fetching; EDownload blob (Ok blob_data);
                             EPrint ("Failed to parse " +:+ name blob)] |})
          | Raise e =>
              (Raise e,
               {| remote := c;
                  log := log w ++ [fetching; EDownload blob (Ok blob_data)] |})
          end
      end
    else
      (Ok document_protos,
       {| remote := remote w;
          log := log w
                 ++ [fetching;
                     EPrint ("Skipping non-supported file type "
                             +:+ name blob)] |}).
Proof.
  unfold harvest_body, is_record, parse_record. cbv zeta.
  destruct (contains ".json" (name blob)); run_monad.
  2: { by rewrite <- ?app_assoc. }
  destruct (blob_download_as_text blob (remote w)) as [[blob_data|e] c].
  2: { by rewrite <- ?app_assoc. }
  destruct (json_loads blob_data) as [document_dict|e].
  2: { by rewrite <- ?app_assoc. }
  destruct (remove_large_fields document_dict) as [stripped|e].
  2: { by rewrite <- ?app_assoc. }
  destruct (Document_from_json (json_dumps stripped)) as [document_proto|[]];
    cbn [remote log]; by rewrite <- ?app_assoc.
Qed.

(** The remote calls of one turn: a download for a record, nothing
    otherwise. *)
Lemma harvest_body_calls blob document_protos (w : world cloud) :
  calls (log (harvest_body blob document_protos w).2)
  = calls (log w)
    ++ (if is_record blob
        then [EDownload blob (blob_download_as_text blob (remote w)).1]
        else []).
Proof.
  rewrite harvest_body_run. cbv zeta.
  destruct (is_record blob);
    [destruct (blob_download_as_text blob (remote w)) as [[blob_data|e] c];
     [destruct (parse_record blob_data) as [[parsed|]|e']|]|];
    cbn [fst snd log]; rewrite calls_app; cbn [calls List.filter is_call];
    rewrite ?app_nil_r; reflexivity.
Qed.

(** The loop downloads records of the listing, in listing order, and
    all of them when it ends normally. *)
Lemma harvest_loop_calls (listing : list Blob) :
  forall document_protos (w : world cloud),
    let (r, w') := for_in listing harvest_body document_protos w in
    exists attempts : list (Blob * outcome string),
      calls (log w') = calls (log w) ++ (download_call <$> attempts)
      /\ attempts.*1 `prefix_of` List.filter is_record listing
      /\ (forall document_protos', r = Ok document_protos' ->
          attempts.*1 = List.filter is_record listing).
Proof.
  induction listing as [|blob blobs IH]; intros protos w; simpl.
  { exists []. simpl. by rewrite app_nil_r. }
  unfold bind.
  pose proof (harvest_body_calls blob protos w) as Hcalls.
  destruct (harvest_body blob protos w) as [[protos1|e] w1] eqn:Hbody;
    cbn [snd] in Hcalls.
  - specialize (IH protos1 w1).
    destruct (for_in blobs harvest_body protos1 w1) as [r w'].
    destruct IH as (attempts & Hrest & Hprefix & Hall).
    rewrite Hrest, Hcalls, <- app_assoc.
    destruct (is_record blob).
    + exists ((blob, (blob_download_as_text blob (remote w)).1) :: attempts).
      split; [done|]. split.
      * simpl. by apply prefix_cons.
      * intros protos' Hr. simpl. f_equal. by eapply Hall.
    + exists attempts. split; [done|]. split; [done|]. exact Hall.
  - rewrite Hcalls. destruct (is_record blob) eqn:Erecord.
    + exists [(blob, (blob_download_as_text blob (remote w)).1)].
      split; [done|]. split; [|done]. simpl.
      apply prefix_cons, prefix_nil.
    + (* the turn of a blob that is no record does not raise *)
      exfalso. rewrite harvest_body_run in Hbody. cbv zeta in Hbody.
      rewrite Erecord in Hbody. done.
Qed.

End HarvesterRuns.

Section HarvesterWhole.
Context {cloud : Type} `{Collaborators cloud}.

Lemma for_in_app {A St} (l1 l2 : list A) (body : A -> St -> M cloud St) s
    (w : world cloud) :
  for_in (l1 ++ l2) body s w
  = bind (for_in l1 body s) (fun s' => for_in l2 body s') w.
Proof.
  revert s w. induction l1 as [|x l1 IH]; intros s w; simpl; [reflexivity|].
  unfold bind in *.
  destruct (body x s w) as [[s'|e] w1]; [apply IH | reflexivity].
Qed.

(** The loop over records that all download and all give a document or
    a schema failure. *)
Lemma harvest_loop_ok (c : cloud) (content : Blob -> string)
    (parsed : Blob -> option Document) (listing : list Blob) :
  (forall blob, blob ∈ listing -> is_record blob = true ->
                blob_download_as_text blob c = (Ok (content blob), c)) ->
  (forall blob, blob ∈ listing -> is_record blob = true ->
                parse_record (content blob) = Ok (parsed blob)) ->
  forall document_protos (w : world cloud),
    remote w = c ->
    exists w',
      for_in listing harvest_body document_protos w
      = (Ok (document_protos ++ omap parsed (List.filter is_record listing)),
         w')
      /\ remote w' = c.
Proof.
  induction listing as [|blob blobs IH]; intros Hdown Hparse protos w Hw.
  { exists w. simpl. by rewrite app_nil_r. }
  simpl. unfold bind. rewrite harvest_body_run. cbv zeta.
  assert (Hdown' : forall b, b ∈ blobs -> is_record b = true ->
                             blob_download_as_text b c = (Ok (content b), c))
    by (intros; apply Hdown; [by apply list_elem_of_further|done]).
  assert (Hparse' : forall b, b ∈ blobs -> is_record b = true ->
                              parse_record (content b) = Ok (parsed b))
    by (intros; apply Hparse; [by apply list_elem_of_further|done]).
  destruct (is_record blob) eqn:Erecord.
  - rewrite Hw, (Hdown blob (list_elem_of_here _ _) Erecord).
    rewrite (Hparse blob (list_elem_of_here _ _) Erecord). simpl.
    destruct (parsed blob) as [document_proto|].
    + edestruct (IH Hdown' Hparse') as (w' & -> & Hw'); [reflexivity|].
      exists w'. split; [|done]. simpl. by rewrite <- app_assoc.
    + edestruct (IH Hdown' Hparse') as (w' & -> & Hw'); [reflexivity|].
      by exists w'.
  - edestruct (IH Hdown' Hparse') as (w' & -> & Hw'); [exact Hw|].
    by exists w'.
Qed.

(** X7. When the listing succeeds, every listed blob whose name contains
    ".json" downloads, and each such record gives a document or fails
    schema parsing with ParseError, the harvest returns the documents of the
    records that parsed, in listing order; blobs that are no records and
    records that fail schema parsing are left out. *)
Theorem harvest_returns_parsed_in_listing_order
    (output_bucket output_directory : string) (w : world cloud)
    (listing : list Blob) (c : cloud) (content : Blob -> string)
    (parsed : Blob -> option Document) :
  storage_list_blobs output_bucket output_directory (remote w)
  = (Ok listing, c) ->
  (forall blob, blob ∈ listing -> is_record blob = true ->
                blob_download_as_text blob c = (Ok (content blob), c)) ->
  (forall blob, blob ∈ listing -> is_record blob = true ->
                parse_record (content blob) = Ok (parsed blob)) ->
  (get_document_protos_from_gcs output_bucket output_directory w).1
  = Ok (omap parsed (List.filter is_record listing)).
Proof.
  intros Hlist Hdown Hparse.
  unfold get_document_protos_from_gcs, bind, call. rewrite Hlist.
  edestruct (harvest_loop_ok c content parsed listing Hdown Hparse [])
    as (w' & -> & _); [reflexivity|]. reflexivity.
Qed.

(** X8. The harvest stops at the first record that raises while it is
    decoded, stripped or parsed with anything but ParseError: when the
    records listed before it are fine, that exception is the result of the
    whole call, and the documents parsed before it are not returned. *)
Theorem harvest_raises_at_first_bad_record
    (output_bucket output_directory : string) (w : world cloud)
    (before : list Blob) (blob : Blob) (rest : list Blob) (c c' : cloud)
    (content : Blob -> string) (parsed : Blob -> option Document)
    (blob_data : string) (e : exn) :
  storage_list_blobs output_bucket output_directory (remote w)
  = (Ok (before ++ blob :: rest), c) ->
  (forall b, b ∈ before -> is_record b = true ->
             blob_download_as_text b c = (Ok (content b), c)) ->
  (forall b, b ∈ before -> is_record b = true ->
             parse_record (content b) = Ok (parsed b)) ->
  is_record blob = true ->
  blob_download_as_text blob c = (Ok blob_data, c') ->
  parse_record blob_data = Raise e ->
  (get_document_protos_from_gcs output_bucket output_directory w).1 = Raise e.
Proof.
  intros Hlist Hdown Hparse Hrecord Hblob Hbad.
  unfold get_document_protos_from_gcs, bind, call. rewrite Hlist.
  rewrite for_in_app. unfold bind.
  edestruct (harvest_loop_ok c content parsed before Hdown Hparse [])
    as (w' & -> & Hw'); [reflexivity|].
  simpl. unfold bind. rewrite harvest_body_run. cbv zeta.
  by rewrite Hrecord, Hw', Hblob, Hbad.
Qed.

(** X9. A record whose text decodes to a JSON value that is not an
    object (a list, a string, a number, a boolean or null) ends the harvest
    with TypeError: [del] on it is not caught by [except KeyError]. *)
Theorem harvest_raises_type_error_on_non_object
    (output_bucket output_directory : string) (w : world cloud)
    (before : list Blob) (blob : Blob) (rest : list Blob) (c c' : cloud)
    (content : Blob -> string) (parsed : Blob -> option Document)
    (blob_data : string) (decoded : json) :
  storage_list_blobs output_bucket output_directory (remote w)
  = (Ok (before ++ blob :: rest), c) ->
  (forall b, b ∈ before -> is_record b = true ->
             blob_download_as_text b c = (Ok (content b), c)) ->
  (forall b, b ∈ before -> is_record b = true ->
             parse_record (content b) = Ok (parsed b)) ->
  is_record blob = true ->
  blob_download_as_text blob c = (Ok blob_data, c') ->
  json_loads blob_data = Ok decoded ->
  (forall fields, decoded <> JObject fields) ->
  (get_document_protos_from_gcs output_bucket output_directory w).1
  = Raise TypeError.
Proof.
  intros Hlist Hdown Hparse Hrecord Hblob Hloads Hshape.
  unfold get_document_protos_from_gcs, bind, call. rewrite Hlist.
  rewrite for_in_app. unfold bind.
  edestruct (harvest_loop_ok c content parsed before Hdown Hparse [])
    as (w' & -> & Hw'); [reflexivity|].
  simpl. unfold bind. rewrite harvest_body_run. cbv zeta.
  rewrite Hrecord, Hw', Hblob. unfold parse_record.
  by rewrite Hloads, (remove_large_fields_not_a_dict _ Hshape).
Qed.

(** X10. Whatever the outcome, the remote calls of a harvest are one
    listing followed by downloads only: each download is of a blob whose
    name contains ".json", the downloaded blobs are a prefix of the records
    of the listing in listing order, all of them when the harvest returns,
    and none when the listing fails. *)
Theorem harvest_only_lists_and_downloads_records
    (output_bucket output_directory : string) (w : world cloud) :
  let (r, w') :=
    get_document_protos_from_gcs output_bucket output_directory w in
  exists (listed : outcome (list Blob)) (attempts : list (Blob * outcome string)),
    calls (log w')
    = calls (log w)
      ++ EListBlobs output_bucket output_directory listed
         :: (download_call <$> attempts)
    /\ match listed with
       | Ok listing =>
           attempts.*1 `prefix_of` List.filter is_record listing
           /\ (forall document_protos, r = Ok document_protos ->
               attempts.*1 = List.filter is_record listing)
       | Raise e => attempts = [] /\ r = Raise e
       end.
Proof.
  unfold get_document_protos_from_gcs, bind, call.
  destruct (storage_list_blobs output_bucket output_directory (remote w))
    as [[listing|e] c].
  - match goal with
    | |- context [for_in listing harvest_body ?p ?w1] =>
        pose proof (harvest_loop_calls listing p w1) as Hloop;
        destruct (for_in listing harvest_body p w1) as [r w']
    end.
    destruct Hloop as (attempts & Hcalls & Hprefix & Hall).
    exists (Ok listing), attempts. split; [|done].
    rewrite Hcalls. cbn [log]. rewrite calls_app, <- app_assoc. reflexivity.
  - exists (Raise e), []. split; [|done].
    cbn [log]. rewrite calls_app. reflexivity.
Qed.

(** X11. The harvester selects by substring, not by extension: a blob is
    downloaded exactly when ".json" occurs somewhere in its name, also in
    the middle; a blob without it is skipped with a printed note, no remote
    call, and the documents gathered so far unchanged. *)
Theorem harvest_selects_by_substring
    (blob : Blob) (document_protos : list Document) (w : world cloud) :
  ((exists pre post, name blob = pre +:+ ".json" +:+ post) ->
   calls (log (harvest_body blob document_protos w).2)
   = calls (log w)
     ++ [EDownload blob (blob_download_as_text blob (remote w)).1])
  /\ (~ (exists pre post, name blob = pre +:+ ".json" +:+ post) ->
      harvest_body blob document_protos w
      = (Ok document_protos,
         {| remote := remote w;
            log := log w
                   ++ [EPrint ("Fetching from " +:+ name blob);
                       EPrint ("Skipping non-supported file type "
                               +:+ name blob)] |})).
Proof.
  split.
  - intros Hsub. apply contains_spec in Hsub.
    rewrite harvest_body_calls. unfold is_record. by rewrite Hsub.
  - intros Hnot. rewrite harvest_body_run. cbv zeta. unfold is_record.
    destruct (contains ".json" (name blob)) eqn:E; [|reflexivity].
    destruct Hnot. by apply contains_spec.
Qed.

End HarvesterWhole.

Lemma harvest_returns_parsed_in_listing_order_witness :
  storage_list_blobs "out" "results/" (remote Fake.mixed_output)
  = (Ok Fake.mixed_output_listing, remote Fake.mixed_output)
  /\ (get_document_protos_from_gcs "out" "results/" Fake.mixed_output).1
     = Ok (omap (fun _ => Some {| entities := [] |})
                (List.filter is_record Fake.mixed_output_listing)).
Proof.
  split; [vm_compute; reflexivity|].
  apply (harvest_returns_parsed_in_listing_order
           "out" "results/" Fake.mixed_output Fake.mixed_output_listing
           (remote Fake.mixed_output) (fun _ => "{}")
           (fun _ => Some {| entities := [] |})).
  - vm_compute. reflexivity.
  - intros blob Hin Hrecord.
    repeat (apply elem_of_cons in Hin as [->|Hin]);
      [vm_compute; reflexivity..| |by apply elem_of_nil in Hin].
    by vm_compute in Hrecord.
  - intros blob Hin Hrecord. vm_compute. reflexivity.
Defined.

Lemma harvest_raises_at_first_bad_record_witness :
  storage_list_blobs "out" "results/" (remote Fake.one_good_one_truncated)
  = (Ok ([ {| bucket := "out"; name := "results/0.json";
              content_type := "application/json" |} ]
         ++ {| bucket := "out"; name := "results/1.json";
               content_type := "application/json" |} :: []),
     remote Fake.one_good_one_truncated)
  /\ parse_record "{" = Raise JSONDecodeError
  /\ (get_document_protos_from_gcs
        "out" "results/" Fake.one_good_one_truncated).1
     = Raise JSONDecodeError.
Proof.
  split; [vm_compute; reflexivity|]. split; [vm_compute; reflexivity|].
  apply (harvest_raises_at_first_bad_record
           "out" "results/" Fake.one_good_one_truncated
           [ {| bucket := "out"; name := "results/0.json";
                content_type := "application/json" |} ]
           {| bucket := "out"; name := "results/1.json";
              content_type := "application/json" |} []
           (remote Fake.one_good_one_truncated)
           (remote Fake.one_good_one_truncated)
           (fun _ => "{}") (fun _ => Some {| entities := [] |}) "{").
  - vm_compute. reflexivity.
  - intros b Hin _. apply list_elem_of_singleton in Hin as ->.
    vm_compute. reflexivity.
  - intros b _ _. vm_compute. reflexivity.
  - vm_compute. reflexivity.
  - vm_compute. reflexivity.
  - vm_compute. reflexivity.
Defined.

Lemma harvest_raises_type_error_on_non_object_witness :
  storage_list_blobs "out" "results/" (remote Fake.list_record)
  = (Ok ([] ++ {| bucket := "out"; name := "results/0.json";
                  content_type := "application/json" |} :: []),
     remote Fake.list_record)
  /\ json_loads "[]" = Ok (JArray [])
  /\ (get_document_protos_from_gcs "out" "results/" Fake.list_record).1
     = Raise TypeError.
Proof.
  split; [vm_compute; reflexivity|]. split; [vm_compute; reflexivity|].
  apply (harvest_raises_type_error_on_non_object
           "out" "results/" Fake.list_record []
           {| bucket := "out"; name := "results/0.json";
              content_type := "application/json" |} []
           (remote Fake.list_record) (remote Fake.list_record)
           (fun _ => "{}") (fun _ => None) "[]" (JArray [])).
  - vm_compute. reflexivity.
  - intros b Hin. by apply elem_of_nil in Hin.
  - intros b Hin. by apply elem_of_nil in Hin.
  - vm_compute. reflexivity.
  - vm_compute. reflexivity.
  - vm_compute. reflexivity.
  - intros fields. discriminate.
Defined.

Lemma harvest_selects_by_substring_witness :
  (exists pre post, "results/0.json.bak" = pre +:+ ".json" +:+ post)
  /\ calls (log (harvest_body
                   {| bucket := "out"; name := "results/0.json.bak";
                      content_type := "application/json" |} []
                   Fake.mixed_output).2)
     = calls (log Fake.mixed_output)
       ++ [EDownload {| bucket := "out"; name := "results/0.json.bak";
                        content_type := "application/json" |}
                     (blob_download_as_text
                        {| bucket := "out"; name := "results/0.json.bak";
                           content_type := "application/json" |}
                        (remote Fake.mixed_output)).1].
Proof.
  assert (Hsub : exists pre post,
             "results/0.json.bak" = pre +:+ ".json" +:+ post)
    by (by exists "results/0", ".bak").
  split; [exact Hsub|].
  exact (proj1 (harvest_selects_by_substring
                  {| bucket := "out"; name := "results/0.json.bak";
                     content_type := "application/json" |} []
                  Fake.mixed_output) Hsub).
Defined.

(** ** Removal of the large fields *)

Lemma has_key_remove_key_same k fields : has_key k (remove_key k fields) = false.
Proof.
  unfold has_key, remove_key. induction fields as [|[k' v] fields IH]; [done|].
  simpl. destruct (String.eqb_spec k' k) as [->|Hne]; simpl; [done|].
  destruct (String.eqb_spec k' k); [done|]. exact IH.
Qed.

Lemma has_key_remove_key_other k k' fields :
  k <> k' -> has_key k (remove_key k' fields) = has_key k fields.
Proof.
  intros Hne. unfold has_key, remove_key.
  induction fields as [|[k0 v] fields IH]; [done|]. simpl.
  destruct (String.eqb_spec k0 k') as [->|Hne']; simpl.
  - destruct (String.eqb_spec k' k); [congruence|]. exact IH.
  - by rewrite IH.
Qed.

Lemma filter_remove_key (keep : string * json -> bool) k fields :
  (forall v, keep (k, v) = false) ->
  List.filter keep (remove_key k fields) = List.filter keep fields.
Proof.
  intros Hdrop. unfold remove_key.
  induction fields as [|[k0 v] fields IH]; [done|]. simpl.
  destruct (String.eqb_spec k0 k) as [->|Hne]; simpl.
  - by rewrite Hdrop.
  - by rewrite IH.
Qed.

(** X12. On a decoded record that is a dict, the removal of the large
    fields never raises and never leaves a "pages" key; every field other
    than "pages" and "text" stays, with its value and in its place; and a
    "text" key is left behind exactly when the record had one and had no
    "pages" key. *)
Theorem remove_large_fields_on_dict (fields : list (string * json)) :
  exists stripped,
    remove_large_fields (JObject fields) = Ok (JObject stripped)
    /\ has_key "pages" stripped = false
    /\ List.filter (fun kv => negb (String.eqb kv.1 "pages")
                              && negb (String.eqb kv.1 "text")) stripped
       = List.filter (fun kv => negb (String.eqb kv.1 "pages")
                                && negb (String.eqb kv.1 "text")) fields
    /\ (has_key "text" stripped = true
        <-> has_key "text" fields = true /\ has_key "pages" fields = false).
Proof.
  unfold remove_large_fields, py_del.
  destruct (has_key "pages" fields) eqn:Hpages.
  - destruct (has_key "text" (remove_key "pages" fields)) eqn:Htext.
    + eexists. split; [reflexivity|]. split; [|split].
      * rewrite has_key_remove_key_other by done.
        apply has_key_remove_key_same.
      * rewrite !filter_remove_key; [done|intros v..]; simpl;
          by rewrite ?andb_false_r.
      * rewrite has_key_remove_key_same. split; [done|]. by intros [_ ?].
    + eexists. split; [reflexivity|]. split; [|split].
      * apply has_key_remove_key_same.
      * by rewrite filter_remove_key.
      * rewrite Htext. split; [done|]. by intros [_ ?].
  - eexists. split; [reflexivity|]. split; [done|]. split; [done|].
    split; [by intros ?|by intros [? _]].
Qed.

(** ** Entity flattener, the mapping as a whole *)

Lemma replace_removes_old (old new : ascii) (s : string) :
  old <> new -> contains (String old "") (replace old new s) = false.
Proof.
  intros Hne. induction s as [|c s IH]; [reflexivity|].
  cbn [replace contains String.prefix]. rewrite IH, orb_false_r.
  destruct (Ascii.eqb_spec c old) as [->|Hc].
  - destruct (ascii_dec old new); [done|]. reflexivity.
  - destruct (ascii_dec old c); [congruence|]. reflexivity.
Qed.

Lemma flatten_dom (es : list Entity) :
  dom (fold_left
         (fun (m : gmap string string) e =>
            <[entity_key e := entity_value e]> m) es ∅)
  = list_to_set (entity_key <$> es).
Proof.
  induction es as [|e es IH] using rev_ind;
    [simpl; by rewrite dom_empty_L|].
  rewrite fold_left_app, fmap_app, list_to_set_app_L. simpl.
  rewrite dom_insert_L, IH, (right_id_L ∅ (∪)). apply (comm_L (∪)).
Qed.

Lemma flatten_size (es : list Entity) :
  (size (fold_left
           (fun (m : gmap string string) e =>
              <[entity_key e := entity_value e]> m) es ∅)
   <= length es)%nat.
Proof.
  induction es as [|e es IH] using rev_ind;
    [simpl; by rewrite map_size_empty|].
  rewrite fold_left_app, length_app. simpl. rewrite map_size_insert.
  destruct (_ !! entity_key e); simpl; lia.
Qed.

Lemma flatten_distinct_keys (es : list Entity) :
  NoDup (entity_key <$> es) ->
  fold_left
    (fun (m : gmap string string) e => <[entity_key e := entity_value e]> m)
    es ∅
  = list_to_map ((fun e => (entity_key e, entity_value e)) <$> es).
Proof.
  induction es as [|e es IH] using rev_ind; intros Hnodup; [done|].
  rewrite fmap_app in Hnodup. apply NoDup_app in Hnodup as (Hes & Hfresh & _).
  rewrite fold_left_app, fmap_app. simpl.
  rewrite list_to_map_snoc, IH; [done|done|].
  rewrite <- list_fmap_compose. intros Hin. eapply Hfresh; [exact Hin|].
  apply list_elem_of_here.
Qed.

(** X13. Every entry of the flattened mapping comes from an entity of the
    document, as its normalized key with its selected value, and no key of
    the mapping contains a slash. *)
Theorem extract_document_entities_entries
    (document : Document) (k v : string) :
  extract_document_entities document !! k = Some v ->
  contains "/" k = false
  /\ exists entity,
      entity ∈ entities document
      /\ k = replace "/" "_" (type_ entity)
      /\ v = match normalized_value entity with
             | Some nv => text nv
             | None => mention_text entity
             end.
Proof.
  intros Hlook. unfold extract_document_entities in Hlook.
  rewrite flatten_lookup in Hlook.
  destruct (last _) as [entity|] eqn:Hlast; [|done].
  injection Hlook as <-. apply last_Some_elem_of in Hlast.
  apply list_elem_of_In, filter_In in Hlast as [Hin Hk].
  apply bool_decide_eq_true in Hk. rewrite <- replace_slash_reference in Hk.
  rewrite <- entity_value_reference. subst k. split.
  - by apply replace_removes_old.
  - exists entity. split; [by apply list_elem_of_In|done].
Qed.

(** X14. The keys of the flattened mapping are exactly the normalized
    types of the document's entities, so every entity is represented under
    its key, and the mapping has at most as many entries as the document
    has entities. *)
Theorem extract_document_entities_keys (document : Document) :
  dom (extract_document_entities document)
  = list_to_set ((fun entity => replace "/" "_" (type_ entity))
                   <$> entities document)
  /\ (forall entity, entity ∈ entities document ->
      is_Some (extract_document_entities document
               !! replace "/" "_" (type_ entity)))
  /\ (size (extract_document_entities document)
      <= length (entities document))%nat.
Proof.
  split; [apply flatten_dom|]. split; [|apply flatten_size].
  intros entity Hin. apply elem_of_dom.
  unfold extract_document_entities. rewrite flatten_dom.
  apply elem_of_list_to_set, list_elem_of_fmap. by exists entity.
Qed.

(** X15. When the normalized types of the entities are pairwise distinct,
    the order of the entities does not matter: any reordering of them
    flattens to the same mapping, which has one entry per entity. *)
Theorem extract_document_entities_order_independent
    (es es' : list Entity) :
  NoDup ((fun entity => replace "/" "_" (type_ entity)) <$> es) ->
  es ≡ₚ es' ->
  extract_document_entities {| entities := es |}
  = extract_document_entities {| entities := es' |}
  /\ size (extract_document_entities {| entities := es |}) = length es.
Proof.
  intros Hnodup Hperm. unfold extract_document_entities. simpl.
  change (NoDup (entity_key <$> es)) in Hnodup.
  assert (Hnodup' : NoDup (entity_key <$> es')) by (by rewrite <- Hperm).
  rewrite !flatten_distinct_keys by done. split.
  - apply list_to_map_proper.
    + by rewrite <- list_fmap_compose.
    + by apply fmap_Permutation.
  - rewrite map_size_list_to_map, length_fmap; [done|].
    by rewrite <- list_fmap_compose.
Qed.

Lemma extract_document_entities_entries_witness :
  extract_document_entities Sample.invoice !! "invoice_total" = Some "10.00"
  /\ contains "/" "invoice_total" = false
  /\ exists entity,
      entity ∈ entities Sample.invoice
      /\ "invoice_total" = replace "/" "_" (type_ entity)
      /\ "10.00" = match normalized_value entity with
                   | Some nv => text nv
                   | None => mention_text entity
                   end.
Proof.
  assert (Hlook : extract_document_entities Sample.invoice !! "invoice_total"
                  = Some "10.00") by (vm_compute; reflexivity).
  split; [exact Hlook|].
  exact (extract_document_entities_entries
           Sample.invoice "invoice_total" "10.00" Hlook).
Defined.

Lemma extract_document_entities_order_independent_witness :
  NoDup ((fun entity => replace "/" "_" (type_ entity))
           <$> [Sample.total; Sample.supplier])
  /\ [Sample.total; Sample.supplier] ≡ₚ [Sample.supplier; Sample.total]
  /\ extract_document_entities
       {| entities := [Sample.total; Sample.supplier] |}
     = extract_document_entities
         {| entities := [Sample.supplier; Sample.total] |}
  /\ size (extract_document_entities
             {| entities := [Sample.total; Sample.supplier] |})
     = length [Sample.total; Sample.supplier].
Proof.
  assert (Hnodup : NoDup ((fun entity => replace "/" "_" (type_ entity))
                            <$> [Sample.total; Sample.supplier])).
  { apply (bool_decide_unpack _). vm_compute. exact I. }
  assert (Hperm : [Sample.total; Sample.supplier]
                    ≡ₚ [Sample.supplier; Sample.total]) by constructor.
  split; [exact Hnodup|]. split; [exact Hperm|].
  exact (extract_document_entities_order_independent _ _ Hnodup Hperm).
Defined.

(** ** Cleanup, runs that complete *)

Section CleanupExtras.
Context {cloud : Type} `{Collaborators cloud}.

(** X16. A cleanup that returns has made exactly these remote calls: the
    two listings, one successful copy of each input blob from the input
    bucket to the archive bucket under its own name, in listing order, and
    then one successful deletion of each intermediate blob followed by each
    input blob.  Intermediate blobs are never copied. *)
Theorem cleanup_gcs_completed_calls
    (input_bucket input_prefix output_bucket output_directory
     archive_bucket : string) (w w' : world cloud) :
  cleanup_gcs input_bucket input_prefix output_bucket output_directory
              archive_bucket w = (Ok tt, w') ->
  exists intermediate_files source_blobs,
    calls (log w')
    = calls (log w)
      ++ [EListBlobs output_bucket output_directory (Ok intermediate_files);
          EListBlobs input_bucket input_prefix (Ok source_blobs)]
      ++ ((fun blob => ECopy input_bucket blob archive_bucket (name blob)
                             (Ok tt)) <$> source_blobs)
      ++ ((fun blob => EDelete blob (Ok tt))
            <$> intermediate_files ++ source_blobs).
Proof.
  intros Hrun.
  pose proof (cleanup_gcs_run input_bucket input_prefix output_bucket
                output_directory archive_bucket w) as Hcalls.
  rewrite Hrun in Hcalls. destruct Hcalls as (evs & Hcalls & Hshape).
  inversion Hshape; subst. rewrite Hcalls. by eexists _, _.
Qed.

(** X17. When both listings are empty there is nothing to do: cleanup
    returns after the two listing calls, without any copy, deletion or
    printed line. *)
Theorem cleanup_gcs_nothing_listed
    (input_bucket input_prefix output_bucket output_directory
     archive_bucket : string) (w : world cloud) (c1 c2 : cloud) :
  storage_list_blobs output_bucket output_directory (remote w) = (Ok [], c1) ->
  storage_list_blobs input_bucket input_prefix c1 = (Ok [], c2) ->
  cleanup_gcs input_bucket input_prefix output_bucket output_directory
              archive_bucket w
  = (Ok tt,
     {| remote := c2;
        log := log w
               ++ [EListBlobs output_bucket output_directory (Ok []);
                   EListBlobs input_bucket input_prefix (Ok [])] |}).
Proof.
  intros Hout Hin. unfold cleanup_gcs, bind, call. rewrite Hout. simpl.
  rewrite Hin. simpl. unfold ret. by rewrite <- app_assoc.
Qed.

End CleanupExtras.

Lemma cleanup_gcs_completed_calls_witness :
  (cleanup_gcs "in" "" "out" "results/" "archive" Fake.ready_for_cleanup).1
  = Ok tt
  /\ exists intermediate_files source_blobs,
      calls (log (cleanup_gcs "in" "" "out" "results/" "archive"
                              Fake.ready_for_cleanup).2)
      = calls (log Fake.ready_for_cleanup)
        ++ [EListBlobs "out" "results/" (Ok intermediate_files);
            EListBlobs "in" "" (Ok source_blobs)]
        ++ ((fun blob => ECopy "in" blob "archive" (name blob) (Ok tt))
              <$> source_blobs)
        ++ ((fun blob => EDelete blob (Ok tt))
              <$> intermediate_files ++ source_blobs).
Proof.
  split; [vm_compute; reflexivity|].
  apply (cleanup_gcs_completed_calls
           "in" "" "out" "results/" "archive" Fake.ready_for_cleanup).
  apply surjective_pairing_ok. vm_compute. reflexivity.
Defined.

Lemma cleanup_gcs_nothing_listed_witness :
  storage_list_blobs "out" "results/" (remote Fake.empty_buckets)
  = (Ok [], remote Fake.empty_buckets)
  /\ storage_list_blobs "in" "" (remote Fake.empty_buckets)
     = (Ok [], remote Fake.empty_buckets)
  /\ cleanup_gcs "in" "" "out" "results/" "archive" Fake.empty_buckets
     = (Ok tt,
        {| remote := remote Fake.empty_buckets;
           log := log Fake.empty_buckets
                  ++ [EListBlobs "out" "results/" (Ok []);
                      EListBlobs "in" "" (Ok [])] |}).
Proof.
  split; [vm_compute; reflexivity|]. split; [vm_compute; reflexivity|].
  apply (cleanup_gcs_nothing_listed
           "in" "" "out" "results/" "archive" Fake.empty_buckets
           (remote Fake.empty_buckets) (remote Fake.empty_buckets)).
  - vm_compute. reflexivity.
  - vm_compute. reflexivity.
Defined.

(** ** Cleanup on the in-memory storage: what is moved *)

Section CleanupMoves.
Import Fake FakeFacts.

Lemma copy_blob_exact source_bucket blob destination_bucket new_name
    (c c' : cloud) :
  copy_blob source_bucket blob destination_bucket new_name c = (Ok tt, c') ->
  exists o,
    objects c !! (source_bucket, name blob) = Some o
    /\ objects c' = <[(destination_bucket, new_name) := o]> (objects c).
Proof.
  unfold copy_blob.
  destruct (objects c !! (source_bucket, name blob)) as [o|]; [|done].
  case_bool_decide; [|done]. intros [= <-]. by exists o.
Qed.

(** The archive loop, when it ends normally, has written each blob's
    object to the archive bucket and changed nothing else. *)
Lemma archive_loop_values input_bucket archive_bucket (blobs : list Blob) :
  archive_bucket <> input_bucket ->
  forall delete_queue delete_queue' (w w' : world cloud),
    for_in blobs (archive_body input_bucket archive_bucket) delete_queue w
    = (Ok delete_queue', w') ->
    (forall blob, blob ∈ blobs ->
                  objects (remote w') !! (archive_bucket, name blob)
                  = objects (remote w) !! (input_bucket, name blob))
    /\ (forall k, (forall blob, blob ∈ blobs ->
                                k <> (archive_bucket, name blob)) ->
                  objects (remote w') !! k = objects (remote w) !! k).
Proof.
  intros Hdistinct.
  induction blobs as [|blob blobs IH]; intros q q' w w' Hloop; simpl in Hloop.
  { injection Hloop as <- <-. split; [|done].
    intros b Hb. by apply elem_of_nil in Hb. }
  apply bind_inv_ok in Hloop as (q1 & w1 & Hbody & Hloop).
  rewrite archive_body_run in Hbody.
  change (bucket_copy_blob input_bucket blob archive_bucket (name blob)
                           (remote w))
    with (copy_blob input_bucket blob archive_bucket (name blob) (remote w))
    in Hbody.
  destruct (copy_blob _ _ _ _ (remote w)) as [[[]|e] c] eqn:Hcopy; [|done].
  injection Hbody as <- <-.
  apply copy_blob_exact in Hcopy as (o & Ho & Hobjects).
  apply IH in Hloop as [Hcopied Hother]. cbn [remote] in *.
  assert (Hinput : forall n, objects c !! (input_bucket, n)
                             = objects (remote w) !! (input_bucket, n)).
  { intros n. rewrite Hobjects, lookup_insert_ne; [done|]. congruence. }
  split.
  - intros b Hb.
    destruct (decide (Exists (fun b' => name b' = name b) blobs))
      as [Hlater|Hnever].
    + apply Exists_exists in Hlater as (b' & Hb' & Hname).
      rewrite <- Hname, (Hcopied b' Hb'). apply Hinput.
    + apply elem_of_cons in Hb as [->|Hb].
      * rewrite Hother; [by rewrite Hobjects, lookup_insert_eq|].
        intros b' Hb' [= Hname]. apply Hnever, Exists_exists. by exists b'.
      * destruct Hnever. apply Exists_exists. by exists b.
  - intros k Hk. rewrite Hother.
    + rewrite Hobjects, lookup_insert_ne; [done|].
      intros Heq. apply (Hk blob); [apply list_elem_of_here|done].
    + intros b Hb. apply Hk. by apply list_elem_of_further.
Qed.

(** The delete loop, when it ends normally, has removed the objects of
    its queue and changed nothing else. *)
Lemma delete_loop_values (delete_queue : list Blob) :
  forall (w w' : world cloud),
    for_in delete_queue delete_body tt w = (Ok tt, w') ->
    forall k,
      objects (remote w') !! k
      = if decide (k ∈ key <$> delete_queue) then None
        else objects (remote w) !! k.
Proof.
  induction delete_queue as [|blob blobs IH]; intros w w' Hloop k;
    simpl in Hloop.
  { injection Hloop as <-. rewrite decide_False; [done|]. apply not_elem_of_nil. }
  apply bind_inv_ok in Hloop as ([] & w1 & Hbody & Hloop).
  rewrite delete_body_run in Hbody.
  change (blob_delete blob (remote w)) with (delete blob (remote w)) in Hbody.
  pose proof (delete_spec blob (remote w)) as Hspec.
  destruct (objects (remote w) !! key blob) as [o|].
  - destruct Hspec as (c & Hdel & _ & Hobjects).
    rewrite Hdel in Hbody. injection Hbody as <-.
    rewrite (IH _ _ Hloop k). cbn [remote]. rewrite Hobjects, fmap_cons.
    destruct (decide (k ∈ key <$> blobs)) as [Hin|Hnotin].
    + rewrite decide_True; [done|]. by apply list_elem_of_further.
    + rewrite lookup_delete. destruct (decide (key blob = k)) as [<-|Hne].
      * rewrite decide_True; [done|]. apply list_elem_of_here.
      * rewrite decide_False; [done|]. apply not_elem_of_cons. done.
  - rewrite Hspec in Hbody. done.
Qed.

(** X18. On the in-memory storage, with an archive bucket that is
    neither the input bucket nor the output bucket, a cleanup that returns
    has moved the inputs: every object that was under the input prefix is
    in the archive bucket under the same name, with its content and content
    type, and no object is left under the input prefix or under the output
    prefix. *)
Theorem cleanup_gcs_moves_inputs_to_archive
    (input_bucket input_prefix output_bucket output_directory
     archive_bucket : string) (w w1 : world cloud) :
  archive_bucket <> input_bucket ->
  archive_bucket <> output_bucket ->
  cleanup_gcs input_bucket input_prefix output_bucket output_directory
              archive_bucket w = (Ok tt, w1) ->
  (forall n o,
      String.prefix input_prefix n = true ->
      objects (remote w) !! (input_bucket, n) = Some o ->
      objects (remote w1) !! (archive_bucket, n) = Some o)
  /\ (forall n,
         String.prefix input_prefix n = true ->
         objects (remote w1) !! (input_bucket, n) = None)
  /\ (forall n,
         String.prefix output_directory n = true ->
         objects (remote w1) !! (output_bucket, n) = None).
Proof.
  intros Hin Hout Hrun. unfold cleanup_gcs in Hrun.
  apply bind_inv_ok in Hrun as (inter & wa & Hl1 & Hrun).
  apply call_inv_ok in Hl1 as (c1 & Hl1 & ->).
  apply bind_inv_ok in Hrun as (q1 & wb & Hq & Hrun).
  rewrite queue_loop in Hq. injection Hq as <- <-.
  apply bind_inv_ok in Hrun as (sources & wc & Hl2 & Hrun).
  apply call_inv_ok in Hl2 as (c2 & Hl2 & ->). cbn [remote] in Hl2.
  apply bind_inv_ok in Hrun as (q2 & wd & Harch & Hdel).
  apply list_blobs_ok in Hl1 as (-> & _ & _ & Hinter).
  apply list_blobs_ok in Hl2 as (-> & _ & _ & Hsources).
  match type of Harch with
  | for_in _ _ ?q ?w0 = _ =>
      pose proof (archive_loop input_bucket archive_bucket sources q w0)
        as Hqueue
  end.
  rewrite Harch in Hqueue. destruct Hqueue as [-> _].
  apply (archive_loop_values _ _ _ Hin) in Harch as [Hcopied Hother].
  pose proof (delete_loop_values _ _ _ Hdel) as Hdeleted.
  cbn [remote] in *. simpl app in Hdeleted.
  assert (Hkeys : forall k, k ∈ key <$> inter ++ sources ->
                            k.1 = output_bucket \/ k.1 = input_bucket).
  { intros k Hk. apply list_elem_of_fmap in Hk as (b & -> & Hb).
    apply elem_of_app in Hb as [Hb|Hb].
    - left. by apply Hinter in Hb as (? & _).
    - right. by apply Hsources in Hb as (? & _). }
  assert (Hlisted_in : forall n o,
             String.prefix input_prefix n = true ->
             objects (remote w) !! (input_bucket, n) = Some o ->
             {| bucket := input_bucket; name := n;
                content_type := object_content_type o |} ∈ sources).
  { intros n o Hp Ho. apply Hsources. simpl. split; [done|]. split; [done|].
    by exists o. }
  assert (Hlisted_out : forall n o,
             String.prefix output_directory n = true ->
             objects (remote w) !! (output_bucket, n) = Some o ->
             {| bucket := output_bucket; name := n;
                content_type := object_content_type o |} ∈ inter).
  { intros n o Hp Ho. apply Hinter. simpl. split; [done|]. split; [done|].
    by exists o. }
  split; [|split].
  - intros n o Hp Ho. rewrite Hdeleted, decide_False.
    + rewrite <- Ho. apply (Hcopied _ (Hlisted_in n o Hp Ho)).
    + intros Hk. apply Hkeys in Hk as [Hk|Hk]; simpl in Hk; congruence.
  - intros n Hp. rewrite Hdeleted. case_decide as Hk; [done|].
    rewrite Hother by (intros b _; congruence).
    destruct (objects (remote w) !! (input_bucket, n)) as [o|] eqn:Ho; [|done].
    destruct Hk. apply list_elem_of_fmap. eexists. split; [|
      apply elem_of_app; right; exact (Hlisted_in n o Hp Ho)]. done.
  - intros n Hp. rewrite Hdeleted. case_decide as Hk; [done|].
    rewrite Hother by (intros b _; congruence).
    destruct (objects (remote w) !! (output_bucket, n)) as [o|] eqn:Ho; [|done].
    destruct Hk. apply list_elem_of_fmap. eexists. split; [|
      apply elem_of_app; left; exact (Hlisted_out n o Hp Ho)]. done.
Qed.

End CleanupMoves.

Lemma cleanup_gcs_moves_inputs_to_archive_witness :
  "archive" <> "in" /\ "archive" <> "out"
  /\ (cleanup_gcs "in" "" "out" "results/" "archive" Fake.ready_for_cleanup).1
     = Ok tt
  /\ (forall n o,
         String.prefix "" n = true ->
         Fake.objects (remote Fake.ready_for_cleanup) !! ("in", n) = Some o ->
         Fake.objects
           (remote (cleanup_gcs "in" "" "out" "results/" "archive"
                                Fake.ready_for_cleanup).2)
         !! ("archive", n) = Some o).
Proof.
  split; [done|]. split; [done|]. split; [vm_compute; reflexivity|].
  apply (cleanup_gcs_moves_inputs_to_archive
           "in" "" "out" "results/" "archive" Fake.ready_for_cleanup).
  - done.
  - done.
  - apply surjective_pairing_ok. vm_compute. reflexivity.
Defined.
